(** * LunaraAI backend ([main.py]): contact form handler

    A shallow embedding of the FastAPI application of [src/main.py] and the
    properties of its request handling.

    The program is a single module: a SQLAlchemy model [ContactMessage]
    stored in the table [contact_messages], a pydantic request schema
    [ContactRequest], the mail notifier [send_contact_email], and two routes,
    [submit_contact] (POST /api/contact) and [read_root] (GET /).

    The code is effectful: it writes rows, reads the process environment and
    the clock, talks to an SMTP server and prints.  It is embedded in a small
    state-and-exception monad [M].  What the outside world decides (the time,
    whether the storage engine or the mail transport raise) is read from an
    [Oracle], one per request.  Every effect is recorded in a trace, so that
    statements about order and absence of effects can be made. *)

From Stdlib Require Import ZArith Lia Ascii Sorted.
From stdpp Require Import base option list strings gmap.

Set Warnings "-register-all,-notation-for-abbreviation".
Local Open Scope Z_scope.
Local Open Scope string_scope.
Local Open Scope list_scope.

(** ** Values *)

(** Decoded JSON, as [request.json()] hands it to FastAPI and as the
    handlers return it. *)
Inductive json : Type :=
  | JNull
  | JBool (b : bool)
  | JNum (n : Z)
  | JStr (s : string)
  | JArr (items : list json)
  | JObj (fields : list (string * json)).

(** [d.get(k)] on a decoded object; the first binding of a key is the one
    the dict holds. *)
Fixpoint dict_get (k : string) (fields : list (string * json)) : option json :=
  match fields with
  | [] => None
  | (k', v) :: rest => if String.eqb k k' then Some v else dict_get k rest
  end.

(** Python truthiness of an [Optional[str]]: [None] and [""] are falsy. *)
Definition truthy (v : option string) : bool :=
  match v with
  | None => false
  | Some s => negb (String.eqb s "")
  end.

Definition nl : string := String (Ascii.ascii_of_nat 10) EmptyString.

(** ** Exceptions

    The exception classes the storage engine, the mail transport and the
    [email] package raise.  All of them derive from [Exception]. *)
Inductive exn : Type :=
  | OperationalError (detail : string)
  | InvalidRequestError (detail : string)
  | OSError (detail : string)
  | SSLError (detail : string)
  | SMTPAuthenticationError (detail : string)
  | SMTPResponseException (detail : string)
  | SMTPException (detail : string)
  | ValueError (detail : string).

Definition isinstance_Exception (e : exn) : bool :=
  match e with
  | OperationalError _ | InvalidRequestError _ | OSError _ | SSLError _
  | SMTPAuthenticationError _ | SMTPResponseException _ | SMTPException _
  | ValueError _ => true
  end.

(** [str(e)], as interpolated by an f-string. *)
Definition exn_str (e : exn) : string :=
  match e with
  | OperationalError d | InvalidRequestError d | OSError d | SSLError d
  | SMTPAuthenticationError d | SMTPResponseException d | SMTPException d
  | ValueError d => d
  end.

Inductive result (A : Type) : Type :=
  | Ok (a : A)
  | Raise (e : exn).
Arguments Ok {A} a.
Arguments Raise {A} e.

(** ** Data model *)

(** An instance of the mapped class [ContactMessage] (lines 26-33).  [id]
    and [created_at] are [None] until the instance has been flushed. *)
Record ContactMessage : Type := mkContactMessage {
  id : option Z;
  name : string;
  email : string;
  message : string;
  created_at : option Z
}.

(** A row of the table [contact_messages].  The primary key is never null;
    [created_at] is a nullable column. *)
Record Row : Type := mkRow {
  row_id : Z;
  row_name : string;
  row_email : string;
  row_message : string;
  row_created_at : option Z
}.

(** The request schema [ContactRequest] (lines 53-56), after validation. *)
Record ContactRequest : Type := mkContactRequest {
  req_name : string;
  req_email : string;
  req_message : string
}.

(** [email.message.EmailMessage] as the notifier fills it in. *)
Record EmailMessage : Type := mkEmailMessage {
  Subject : string;
  From : string;
  To : string;
  content : string
}.

(** ** Effects *)

Inductive event : Type :=
  | SessionOpened
  | SessionClosed
  | SqlCreateTable
  | SqlCreateIndex
  | SqlInsert (r : Row)
  | SqlCommit
  | SqlRollback
  | SqlSelect (pk : Z)
  | SmtpConnect (host : string) (port : Z)
  | SmtpLogin (user password : string)
  | SmtpSendMessage (msg : EmailMessage)
  | SmtpQuit
  | Print (line : string).

(** An event of the storage engine, reads included. *)
Definition is_sql_event (e : event) : bool :=
  match e with
  | SqlCreateTable | SqlCreateIndex | SqlInsert _ | SqlCommit | SqlRollback
  | SqlSelect _ => true
  | _ => false
  end.

(** The statements of the insert of lines 140-142: the INSERT and the
    COMMIT of [db.commit()] and the SELECT of [db.refresh(contact)]. *)
Definition is_insert_event (e : event) : bool :=
  match e with
  | SqlInsert _ | SqlCommit | SqlSelect _ => true
  | _ => false
  end.

(** A statement that creates a schema object. *)
Definition is_create_event (e : event) : bool :=
  match e with
  | SqlCreateTable | SqlCreateIndex => true
  | _ => false
  end.

(** A network action of the mail transport. *)
Definition is_network_event (e : event) : bool :=
  match e with
  | SmtpConnect _ _ | SmtpLogin _ _ | SmtpSendMessage _ | SmtpQuit => true
  | _ => false
  end.

(** The events of the notification step: the network actions of the
    transport and the lines the notifier and the handler's [except] branch
    print. *)
Definition is_notifier_event (e : event) : bool :=
  match e with
  | SmtpConnect _ _ | SmtpLogin _ _ | SmtpSendMessage _ | SmtpQuit | Print _ => true
  | _ => false
  end.

(** The process-wide state: the table behind the engine ([None] while the
    table does not exist), [os.environ], and the trace of effects so far,
    oldest first. *)
Record World : Type := mkWorld {
  contact_messages : option (list Row);
  environ : gmap string string;
  trace : list event
}.

(** What the outside decides during one request: the reading of
    [datetime.utcnow()], and for each call that reaches the storage engine or
    the SMTP server, the exception it raises, if any. *)
Record Oracle : Type := mkOracle {
  utcnow : Z;
  commit_fault : option exn;
  refresh_fault : option exn;
  smtp_connect_fault : option exn;
  smtp_login_fault : option exn;
  smtp_send_fault : option exn;
  smtp_quit_fault : option exn
}.

(** The state a request runs in: the world, the instances the request has
    created (an instance is named by its position, which is what lets
    [db.commit()] and [db.refresh(contact)] mutate the object the handler
    holds), [db.new], the instances added to the session and not yet
    flushed, and whether the session has a transaction open on its
    connection. *)
Record State : Type := mkTxState {
  world : World;
  heap : list ContactMessage;
  session_new : list nat;
  in_transaction : bool
}.

(** A state whose session has no transaction open, as when a request
    starts. *)
Notation mkState w hp new := (mkTxState w hp new false).

(** The state [s] with [evs] appended to the trace and nothing else
    changed. *)
Definition with_trace (s : State) (evs : list event) : State :=
  mkTxState (mkWorld (contact_messages (world s)) (environ (world s))
                     (trace (world s) ++ evs))
            (heap s) (session_new s) (in_transaction s).

Definition M (A : Type) : Type := Oracle -> State -> result A * State.

Definition ret {A} (a : A) : M A := fun _ s => (Ok a, s).

Definition bind {A B} (m : M A) (k : A -> M B) : M B :=
  fun o s =>
    match m o s with
    | (Ok a, s') => k a o s'
    | (Raise e, s') => (Raise e, s')
    end.

Definition raise {A} (e : exn) : M A := fun _ s => (Raise e, s).

Notation "'let!' x ':=' m 'in' k" := (bind m (fun x => k))
  (at level 10, x name, m at level 100, k at level 200).
Notation "m ';;' k" := (bind m (fun _ => k))
  (at level 100, k at level 200, right associativity).

(** [try: body except Exception as e: handler(e)] *)
Definition try_except_Exception {A} (body : M A) (handler : exn -> M A) : M A :=
  fun o s =>
    match body o s with
    | (Ok a, s') => (Ok a, s')
    | (Raise e, s') =>
        if isinstance_Exception e then handler e o s' else (Raise e, s')
    end.

(** [try: body finally: cleanup] *)
Definition try_finally {A} (body : M A) (cleanup : M unit) : M A :=
  fun o s =>
    match body o s with
    | (r, s') =>
        match cleanup o s' with
        | (Ok _, s'') => (r, s'')
        | (Raise e, s'') => (Raise e, s'')
        end
    end.

Definition ask : M Oracle := fun o s => (Ok o, s).
Definition get_world : M World := fun _ s => (Ok (world s), s).
Definition put_world (w : World) : M unit :=
  fun _ s => (Ok tt, mkTxState w (heap s) (session_new s) (in_transaction s)).

Definition emit (e : event) : M unit :=
  fun _ s =>
    let w := world s in
    (Ok tt,
     mkTxState (mkWorld (contact_messages w) (environ w) (trace w ++ [e]))
               (heap s) (session_new s) (in_transaction s)).

Definition print (line : string) : M unit := emit (Print line).

(** [os.environ.get(key)] and [os.environ.get(key, default)] *)
Definition os_environ_get (key : string) : M (option string) :=
  fun _ s => (Ok (environ (world s) !! key), s).

Definition os_environ_get_default (key : string) (default : option string)
  : M (option string) :=
  fun _ s =>
    (Ok (match environ (world s) !! key with
         | Some v => Some v
         | None => default
         end), s).

(** ** Persistence store (lines 17-46)

    [contact_messages] is a SQLite table whose [id] column is an
    [INTEGER PRIMARY KEY]: a row inserted without an id gets one more than
    the largest id in the table, and 1 in an empty table.  This is the
    engine's rule as long as the largest id is below [max_rowid]; what the
    engine does once that id is in the table (it looks for an unused id at
    random) is not described by [next_rowid], and the statements that depend
    on the value of an id say so with [rowid_headroom]. *)
Definition next_rowid (rows : list Row) : Z :=
  match rows with
  | [] => 1
  | r :: rest => foldr (fun r' m => Z.max (row_id r') m) (row_id r) rest + 1
  end.

(** Ids are signed 64-bit integers. *)
Definition max_rowid : Z := 9223372036854775807.

(** [create_db_and_tables()]: [Base.metadata.create_all] runs in a
    transaction of its own, which it commits on every run.  It creates the
    table, and the index that [index=True] asks for on [id], if the table
    does not exist, and leaves an existing table alone. *)
Definition create_db_and_tables : M unit :=
  let! w := get_world in
  match contact_messages w with
  | Some _ => emit SqlCommit
  | None =>
      put_world (mkWorld (Some []) (environ w) (trace w));;
      emit SqlCreateTable;;
      emit SqlCreateIndex;;
      emit SqlCommit
  end.

(** [ContactMessage(name=..., email=..., message=...)]: a new transient
    instance; the handler never passes [id] or [created_at]. *)
Definition ContactMessage_init (name email message : string) : M nat :=
  fun _ s =>
    (Ok (length (heap s)),
     mkTxState (world s)
               (heap s ++ [mkContactMessage None name email message None])
               (session_new s) (in_transaction s)).

(** [contact.id] *)
Definition getattr_id (contact : nat) : M (option Z) :=
  fun _ s => (Ok (heap s !! contact ≫= id), s).

(** [SessionLocal()]: a new session, with nothing pending and no
    transaction. *)
Definition SessionLocal : M unit :=
  fun o s => emit SessionOpened o (mkState (world s) (heap s) []).

(** [db.close()]: a transaction that is still open is rolled back when the
    session gives its connection back; a session without one emits
    nothing. *)
Definition db_close : M unit :=
  fun o s =>
    let s1 := if in_transaction s then snd (emit SqlRollback o s) else s in
    emit SessionClosed o (mkState (world s1) (heap s1) []).

(** [db.add(contact)] *)
Definition db_add (contact : nat) : M unit :=
  fun _ s =>
    (Ok tt,
     mkTxState (world s) (heap s) (session_new s ++ [contact]) (in_transaction s)).

(** The flush done by [db.commit()]: one INSERT per pending instance.  The
    engine chooses the id; [created_at] takes the column default
    [datetime.utcnow()] when the instance has none. *)
Fixpoint flush (now : Z) (pending : list nat) (rows : list Row)
    (hp : list ContactMessage) (evs : list event)
  : list Row * list ContactMessage * list event :=
  match pending with
  | [] => (rows, hp, evs)
  | c :: rest =>
      match hp !! c with
      | None => flush now rest rows hp evs
      | Some obj =>
          let stamp := match created_at obj with
                       | Some t => t
                       | None => now
                       end in
          let r := mkRow (next_rowid rows) (name obj) (email obj)
                         (message obj) (Some stamp) in
          flush now rest (rows ++ [r])
                (<[c := mkContactMessage (Some (row_id r)) (name obj)
                           (email obj) (message obj) (Some stamp)]> hp)
                (evs ++ [SqlInsert r])
      end
  end.

(** [db.commit()]: flush and COMMIT in one transaction.  When the table is
    missing or the engine faults, the transaction is rolled back and the
    error is raised; the table is then as it was.  Either way the session has
    no transaction open afterwards. *)
Definition db_commit : M unit :=
  fun o s =>
    let w := world s in
    let rollback (e : exn) : result unit * State :=
      (Raise e,
       mkState (mkWorld (contact_messages w) (environ w) (trace w ++ [SqlRollback]))
               (heap s) []) in
    match contact_messages w with
    | None => rollback (OperationalError "no such table: contact_messages")
    | Some rows =>
        match commit_fault o with
        | Some e => rollback e
        | None =>
            let '(rows', hp', evs) :=
              flush (utcnow o) (session_new s) rows (heap s) [] in
            (Ok tt,
             mkState (mkWorld (Some rows') (environ w)
                              (trace w ++ evs ++ [SqlCommit]))
                     hp' [])
        end
    end.

Definition instance_of_row (r : Row) : ContactMessage :=
  mkContactMessage (Some (row_id r)) (row_name r) (row_email r)
                   (row_message r) (row_created_at r).

(** [db.refresh(contact)]: SELECT the row of the instance by primary key
    and load its columns into the instance.  The SELECT begins a new
    transaction, which stays open, also when the SELECT raises. *)
Definition db_refresh (contact : nat) : M unit :=
  fun o s =>
    let w := world s in
    match heap s !! contact ≫= id with
    | None => (Raise (InvalidRequestError "Instance is not persistent within this Session"), s)
    | Some pk =>
        let s1 := mkTxState (mkWorld (contact_messages w) (environ w)
                                     (trace w ++ [SqlSelect pk]))
                            (heap s) (session_new s) true in
        match refresh_fault o, contact_messages w with
        | Some e, _ => (Raise e, s1)
        | None, None =>
            (Raise (OperationalError "no such table: contact_messages"), s1)
        | None, Some rows =>
            match List.find (fun r => Z.eqb (row_id r) pk) rows with
            | None => (Raise (InvalidRequestError "Could not refresh instance"), s1)
            | Some r =>
                (Ok tt,
                 mkTxState (world s1) (<[contact := instance_of_row r]> (heap s))
                           (session_new s) true)
            end
        end
    end.

(** [get_db()] wrapped around the code that receives the session:
    [db = SessionLocal(); try: yield db; finally: db.close()]. *)
Definition get_db {A} (user : M A) : M A :=
  SessionLocal;;
  try_finally user db_close.

(** ** Mail notifier (lines 63-95) *)

Definition fault_point (f : Oracle -> option exn) : M unit :=
  let! o := ask in
  match f o with
  | Some e => raise e
  | None => ret tt
  end.

(** [with smtplib.SMTP_SSL(host, port, context=context) as server: body].
    The constructor connects; leaving the block, normally or not, sends
    QUIT and closes.  [SMTP.__exit__] raises when QUIT is not answered with
    221, and what it raises replaces an exception that was on its way out of
    the block. *)
Definition with_SMTP_SSL {A} (host : string) (port : Z) (body : M A) : M A :=
  emit (SmtpConnect host port);;
  fault_point smtp_connect_fault;;
  try_finally body (emit SmtpQuit;; fault_point smtp_quit_fault).

Definition server_login (user password : string) : M unit :=
  emit (SmtpLogin user password);;
  fault_point smtp_login_fault.

Definition server_send_message (msg : EmailMessage) : M unit :=
  emit (SmtpSendMessage msg);;
  fault_point smtp_send_fault.

(** The string held by a variable that has passed the truthiness guard. *)
Definition text (v : option string) : string := default "" v.

(** What is left of a string after its first line boundary, in the sense of
    [str.splitlines()]: LF, CR, CR LF, VT, FF, FS, GS, RS, and NEL, LINE
    SEPARATOR and PARAGRAPH SEPARATOR in their UTF-8 encoding. *)
Fixpoint after_line_boundary (s : string) : option string :=
  match s with
  | EmptyString => None
  | String c rest =>
      let n := nat_of_ascii c in
      if Nat.eqb n 13 then
        match rest with
        | String c' rest' =>
            if Nat.eqb (nat_of_ascii c') 10 then Some rest' else Some rest
        | EmptyString => Some rest
        end
      else if Nat.eqb n 10 || Nat.eqb n 11 || Nat.eqb n 12
              || Nat.eqb n 28 || Nat.eqb n 29 || Nat.eqb n 30 then Some rest
      else
        match rest with
        | String c1 rest1 =>
            if Nat.eqb n 194 && Nat.eqb (nat_of_ascii c1) 133 then Some rest1
            else
              match rest1 with
              | String c2 rest2 =>
                  if Nat.eqb n 226 && Nat.eqb (nat_of_ascii c1) 128
                     && (Nat.eqb (nat_of_ascii c2) 168
                         || Nat.eqb (nat_of_ascii c2) 169)
                  then Some rest2
                  else after_line_boundary rest
              | EmptyString => after_line_boundary rest
              end
        | EmptyString => None
        end
  end.

(** [len(value.splitlines()) > 1], the test the [email] package applies to
    a header value: something follows the first line boundary. *)
Definition more_than_one_line (value : string) : bool :=
  match after_line_boundary value with
  | Some rest => negb (String.eqb rest "")
  | None => false
  end.

(** [msg[name] = value] (lines 78-80): a value of more than one line is
    refused with a [ValueError]. *)
Definition set_header (value : string) : M string :=
  if more_than_one_line value
  then raise (ValueError "Header values may not contain linefeed or carriage return characters")
  else ret value.

Definition email_body (data : ContactRequest) : string :=
  "New contact message from Lunara AI" +:+ nl +:+ nl +:+
  "Name: " +:+ req_name data +:+ nl +:+
  "Email: " +:+ req_email data +:+ nl +:+ nl +:+
  "Message:" +:+ nl +:+ req_message data +:+ nl.

Definition send_contact_email (data : ContactRequest) : M unit :=
  let! gmail_user := os_environ_get "GMAIL_USER" in
  let! gmail_app_password := os_environ_get "GMAIL_APP_PASSWORD" in
  let! to_email := os_environ_get_default "TO_EMAIL" gmail_user in
  if negb (truthy gmail_user) || negb (truthy gmail_app_password)
     || negb (truthy to_email)
  then
    print "⚠️ Email not sent: missing GMAIL_USER / GMAIL_APP_PASSWORD / TO_EMAIL env vars"
  else
    let! subject := set_header "New contact message from Lunara AI" in
    let! from := set_header (text gmail_user) in
    let! to := set_header (text to_email) in
    let msg := {| Subject := subject;
                  From := from;
                  To := to;
                  content := email_body data |} in
    with_SMTP_SSL "smtp.gmail.com" 465
      (server_login (text gmail_user) (text gmail_app_password);;
       server_send_message msg);;
    print "✅ Contact email sent successfully".

(** ** Routes (lines 124-160) *)

Definition json_of_int (v : option Z) : json :=
  match v with
  | Some n => JNum n
  | None => JNull
  end.

Definition submit_contact (payload : ContactRequest) : M json :=
  let! contact := ContactMessage_init (req_name payload) (req_email payload)
                                      (req_message payload) in
  db_add contact;;
  db_commit;;
  db_refresh contact;;
  try_except_Exception
    (send_contact_email payload)
    (fun e => print ("⚠️ Error sending email: " +:+ exn_str e));;
  let! contact_id := getattr_id contact in
  ret (JObj [("success", JBool true);
             ("id", json_of_int contact_id);
             ("message",
              JStr "Contact message saved and email sent (if email is configured).")]).

(** The insert of the handler, lines 134-142 of [submit_contact]: build the
    instance, add it to the session, commit, refresh. *)
Definition insert_record (payload : ContactRequest) : M nat :=
  let! contact := ContactMessage_init (req_name payload) (req_email payload)
                                      (req_message payload) in
  db_add contact;;
  db_commit;;
  db_refresh contact;;
  ret contact.

(** The row a successful insert of [payload] adds to [rows]. *)
Definition inserted_row (payload : ContactRequest) (o : Oracle) (rows : list Row)
  : Row :=
  mkRow (next_rowid rows) (req_name payload) (req_email payload)
        (req_message payload) (Some (utcnow o)).

(** The body of the 200 response that carries the id [i]. *)
Definition success_body (i : Z) : json :=
  JObj [("success", JBool true);
        ("id", JNum i);
        ("message",
         JStr "Contact message saved and email sent (if email is configured).")].

(** The insert goes through: the table exists and neither the commit nor
    the refresh faults. *)
Definition insert_ok (o : Oracle) (w : World) : bool :=
  match contact_messages w, commit_fault o, refresh_fault o with
  | Some _, None, None => true
  | _, _, _ => false
  end.

Definition read_root : M json :=
  ret (JObj [("status", JStr "ok");
             ("message", JStr "Lunara AI backend is running")]).

Definition on_startup : M unit :=
  create_db_and_tables;;
  print "✅ Database ready".

(** ** The application

    FastAPI decodes the body, resolves the dependency [get_db], validates
    the body against [ContactRequest] and only then calls the route
    function.  A validation error becomes a 422 response, an exception that
    leaves the route function a 500 response. *)

Inductive error_type : Type :=
  | missing
  | string_type
  | value_error
  | model_attributes_type.

(** One entry of the [detail] list of a validation error: the location in
    the body and the kind of error. *)
Definition validation_error : Type := (list string * error_type)%type.

Definition error_type_str (t : error_type) : string :=
  match t with
  | missing => "missing"
  | string_type => "string_type"
  | value_error => "value_error"
  | model_attributes_type => "model_attributes_type"
  end.

Definition validation_error_json (e : validation_error) : json :=
  JObj [("type", JStr (error_type_str (snd e)));
        ("loc", JArr (JStr "body" :: map JStr (fst e)))].

Inductive Request : Type :=
  | GET (path : string)
  | POST (path : string) (body : json).

Record Response : Type := mkResponse {
  status_code : Z;
  body : json
}.

Definition internal_server_error : Response :=
  mkResponse 500 (JStr "Internal Server Error").

Definition unprocessable (errors : list validation_error) : Response :=
  mkResponse 422 (JObj [("detail", JArr (map validation_error_json errors))]).

Definition not_found : Response :=
  mkResponse 404 (JObj [("detail", JStr "Not Found")]).

Definition method_not_allowed : Response :=
  mkResponse 405 (JObj [("detail", JStr "Method Not Allowed")]).

(** A field annotated [str]: required, and a JSON string. *)
Definition str_field (k : string) (fields : list (string * json))
  : list validation_error + string :=
  match dict_get k fields with
  | None => inl [([k], missing)]
  | Some (JStr s) => inr s
  | Some _ => inl [([k], string_type)]
  end.

Definition errors_of {A} (r : list validation_error + A) : list validation_error :=
  match r with
  | inl errs => errs
  | inr _ => []
  end.

(** The world once [get_db] has opened the session, and the world a request
    leaves behind when [get_db] has closed it. *)
Definition opened (w : World) : World :=
  mkWorld (contact_messages w) (environ w) (trace w ++ [SessionOpened]).

Definition closed (s : State) : World :=
  mkWorld (contact_messages (world s)) (environ (world s))
          (trace (world s)
           ++ (if in_transaction s then [SqlRollback] else [])
           ++ [SessionClosed]).

(** Run a computation as one request: a fresh heap and session, and only
    the world survives. *)
Definition run_request {A} (m : M A) (o : Oracle) (w : World) : result A * World :=
  let '(r, s) := m o (mkState w [] []) in (r, world s).

Section App.

(** [EmailStr] hands the string to the [email_validator] package, which
    is not part of this module: it returns the normalised address, or
    rejects the string. *)
Variable validate_email : string -> option string.

Definition EmailStr_field (k : string) (fields : list (string * json))
  : list validation_error + string :=
  match dict_get k fields with
  | None => inl [([k], missing)]
  | Some (JStr s) =>
      match validate_email s with
      | Some normalised => inr normalised
      | None => inl [([k], value_error)]
      end
  | Some _ => inl [([k], string_type)]
  end.

(** Validation of a decoded body against [ContactRequest]: every field
    is checked and the errors of all fields are reported together. *)
Definition ContactRequest_validate (b : json)
  : list validation_error + ContactRequest :=
  match b with
  | JObj fields =>
      match str_field "name" fields, EmailStr_field "email" fields,
            str_field "message" fields with
      | inr n, inr e, inr m => inr (mkContactRequest n e m)
      | rn, re, rm => inl (errors_of rn ++ errors_of re ++ errors_of rm)
      end
  | _ => inl [([], model_attributes_type)]
  end.

(** POST /api/contact *)
Definition contact_route (b : json) : M Response :=
  get_db
    (match ContactRequest_validate b with
     | inl errors => ret (unprocessable errors)
     | inr payload =>
         let! r := submit_contact payload in
         ret (mkResponse 200 r)
     end).

(** GET / *)
Definition root_route : M Response :=
  let! r := read_root in
  ret (mkResponse 200 r).

(** The two routes the module declares.  For any other request the model
    answers as the router does for an unknown path or method; the pages
    FastAPI serves of its own (/docs, /redoc, /openapi.json) and its
    redirects of trailing slashes are not modelled.  None of them runs code
    of the module or touches its state. *)
Definition dispatch (req : Request) : M Response :=
  match req with
  | POST path b =>
      if String.eqb path "/api/contact" then contact_route b
      else if String.eqb path "/" then ret method_not_allowed
      else ret not_found
  | GET path =>
      if String.eqb path "/" then root_route
      else if String.eqb path "/api/contact" then ret method_not_allowed
      else ret not_found
  end.

Definition app (req : Request) (o : Oracle) (w : World) : Response * World :=
  match run_request (dispatch req) o w with
  | (Ok resp, w') => (resp, w')
  | (Raise _, w') => (internal_server_error, w')
  end.

(** Requests served one after the other, each with its own oracle. *)
Fixpoint serve (reqs : list (Request * Oracle)) (w : World)
  : list Response * World :=
  match reqs with
  | [] => ([], w)
  | (req, o) :: rest =>
      let '(resp, w1) := app req o w in
      let '(resps, w2) := serve rest w1 in
      (resp :: resps, w2)
  end.

(** The operations of the system: the startup hook and the handling of
    a request. *)
Inductive operation : Type :=
  | Startup
  | Handle (req : Request).

Definition step (op : operation) (o : Oracle) (w : World) : World :=
  match op with
  | Startup => snd (run_request on_startup o w)
  | Handle req => snd (app req o w)
  end.

Definition run_ops (ops : list (operation * Oracle)) (w : World) : World :=
  foldl (fun w' '(op, o) => step op o w') w ops.

End App.

(** ** Vocabulary of the statements *)

(** The recipient [send_contact_email] resolves: [TO_EMAIL], and the sender
    when [TO_EMAIL] is unset. *)
Definition resolved_recipient (env : gmap string string) : option string :=
  match env !! "TO_EMAIL" with
  | Some v => Some v
  | None => env !! "GMAIL_USER"
  end.

(** The body is an object that lacks one of the three fields. *)
Definition missing_field (b : json) : Prop :=
  exists fields k,
    b = JObj fields
    /\ k ∈ ["name"; "email"; "message"]
    /\ dict_get k fields = None.

(** The body is an object whose [email] does not parse as an address: it
    is not a string, or the validator rejects the string. *)
Definition invalid_email (validate_email : string -> option string) (b : json)
  : Prop :=
  exists fields v,
    b = JObj fields
    /\ dict_get "email" fields = Some v
    /\ forall s, v = JStr s -> validate_email s = None.

(** The id a 200 response of POST /api/contact carries. *)
Definition response_id (resp : Response) : option Z :=
  if Z.eqb (status_code resp) 200 then
    match body resp with
    | JObj fields =>
        match dict_get "id" fields with
        | Some (JNum i) => Some i
        | _ => None
        end
    | _ => None
    end
  else None.

(** The ids held by the table. *)
Definition table_ids (w : World) : list Z :=
  map row_id (default [] (contact_messages w)).

(** A request that is a valid submission. *)
Definition valid_submission (validate_email : string -> option string)
    (req : Request) : Prop :=
  exists b payload,
    req = POST "/api/contact" b
    /\ ContactRequest_validate validate_email b = inr payload.

(** The success flag in its strongest reading: a valid submission whose row
    is in the table afterwards is answered 200 with the success body. *)
Definition persisted_means_success (validate_email : string -> option string)
    (b : json) (payload : ContactRequest) (o : Oracle) (w : World) : Prop :=
  ContactRequest_validate validate_email b = inr payload ->
  forall rows,
    contact_messages w = Some rows ->
    contact_messages (snd (app validate_email (POST "/api/contact" b) o w))
    = Some (rows ++ [inserted_row payload o rows]) ->
    fst (app validate_email (POST "/api/contact" b) o w)
    = mkResponse 200 (success_body (next_rowid rows)).

(** Atomicity of the insert in its strongest reading: the caller gets the
    instance of a committed row, id populated, or an error with the table as
    it was before the call. *)
Definition insert_all_or_nothing (payload : ContactRequest) (o : Oracle)
    (s : State) : Prop :=
  match insert_record payload o s with
  | (Ok contact, s') =>
      exists rows,
        contact_messages (world s) = Some rows
        /\ contact_messages (world s')
           = Some (rows ++ [inserted_row payload o rows])
        /\ heap s' !! contact
           = Some (instance_of_row (inserted_row payload o rows))
  | (Raise _, s') =>
      contact_messages (world s') = contact_messages (world s)
  end.

(** ** Vocabulary for the notifier and the table *)

(** What one call of [send_contact_email] does in the environment [env]:
    its outcome and the events it leaves, read off a run that starts with an
    empty trace. *)
Definition notifier_outcome (env : gmap string string) (o : Oracle)
    (data : ContactRequest) : result unit * list event :=
  let '(r, s) := send_contact_email data o (mkState (mkWorld None env []) [] []) in
  (r, trace (world s)).

(** The events of the notification step of [submit_contact]: those of the
    notifier, and the line the [except] branch prints when it raised. *)
Definition notify_events (env : gmap string string) (o : Oracle)
    (data : ContactRequest) : list event :=
  match notifier_outcome env o data with
  | (Ok _, evs) => evs
  | (Raise e, evs) => evs ++ [Print ("⚠️ Error sending email: " +:+ exn_str e)]
  end.



Definition is_smtp_connect (e : event) : bool :=
  match e with
  | SmtpConnect _ _ => true
  | _ => false
  end.

Definition is_session_event (e : event) : bool :=
  match e with
  | SessionOpened | SessionClosed => true
  | _ => false
  end.

(** The rows of the table, none while the table does not exist. *)
Definition table_rows (w : World) : list Row :=
  default [] (contact_messages w).

(** There is room for [n] more rows below the largest id the engine can
    store: the [n] ids that follow the largest id of the table do not pass
    [max_rowid]. *)
Definition rowid_headroom (w : World) (n : nat) : Prop :=
  next_rowid (table_rows w) + Z.of_nat n <= max_rowid + 1.

(** The ids of the table are 1, 2, ..., n in insertion order. *)
Definition dense_ids (w : World) : Prop :=
  table_ids w = Z.of_nat <$> seq 1 (length (table_ids w)).

(** ** Sample inputs

    A stand-in address check on which the application can be run on
    concrete requests: exactly one at sign, neither first nor last. *)
Fixpoint count_at (s : string) : nat :=
  match s with
  | EmptyString => 0
  | String c rest =>
      ((if Ascii.eqb c "@"%char then 1 else 0) + count_at rest)%nat
  end.

Fixpoint last_is_at (s : string) : bool :=
  match s with
  | EmptyString => false
  | String c EmptyString => Ascii.eqb c "@"%char
  | String _ rest => last_is_at rest
  end.

Definition sample_validate_email (s : string) : option string :=
  match s with
  | EmptyString => None
  | String c _ =>
      if Nat.eqb (count_at s) 1 && negb (Ascii.eqb c "@"%char) && negb (last_is_at s)
      then Some s
      else None
  end.

Definition sample_body (n e m : string) : json :=
  JObj [("name", JStr n); ("email", JStr e); ("message", JStr m)].

(** An empty table, and a configured notifier. *)
Definition sample_world : World :=
  mkWorld (Some [])
          (<["GMAIL_USER" := "owner@example.com"]>
             (<["GMAIL_APP_PASSWORD" := "app-password"]> ∅))
          [].

(** An empty table, and no notifier configuration at all. *)
Definition bare_world : World := mkWorld (Some []) ∅ [].

Definition healthy (now : Z) : Oracle :=
  mkOracle now None None None None None None.

Definition mail_down (now : Z) : Oracle :=
  mkOracle now None None None
           (Some (SMTPAuthenticationError "Username and Password not accepted"))
           None None.

Definition store_down (now : Z) : Oracle :=
  mkOracle now (Some (OperationalError "database is locked")) None None None None
           None.

Definition refresh_down (now : Z) : Oracle :=
  mkOracle now None (Some (OperationalError "database is locked")) None None None
           None.

(** No table yet: the state before the startup hook has run. *)
Definition absent_world : World := mkWorld None ∅ [].


(** Sender and credential are set, and [TO_EMAIL] is set to the empty
    string. *)
Definition blank_recipient_world : World :=
  mkWorld (Some [])
          (<["TO_EMAIL" := ""]>
             (<["GMAIL_USER" := "owner@example.com"]>
                (<["GMAIL_APP_PASSWORD" := "app-password"]> ∅)))
          [].

(** A sender with a second line, as in an attempt to add a header. *)
Definition injected_sender_world : World :=
  mkWorld (Some [])
          (<["GMAIL_USER" := "owner@example.com" +:+ nl +:+ "Bcc: spy@example.com"]>
             (<["GMAIL_APP_PASSWORD" := "app-password"]> ∅))
          [].

Definition connect_down (now : Z) : Oracle :=
  mkOracle now None None (Some (OSError "Network is unreachable")) None None None.

Definition send_down (now : Z) : Oracle :=
  mkOracle now None None None None (Some (SMTPException "Message refused")) None.


(** A table that already holds rows, with ids that are not consecutive. *)
Definition legacy_world : World :=
  mkWorld (Some [mkRow 3 "Old" "old@example.com" "first" (Some 1600000000);
                 mkRow 9 "Older" "older@example.com" "second" None])
          ∅ [].

(** A mixed sequence of operations: submissions that go through, the
    startup hook, a refresh that raises, a commit that raises, a GET, a
    rejected body and a mail transport that is down. *)
Definition sample_ops : list (operation * Oracle) :=
  [(Handle (POST "/api/contact" (sample_body "A" "a@example.com" "one")),
    healthy 1700000001);
   (Startup, healthy 1700000002);
   (Handle (POST "/api/contact" (sample_body "B" "b@example.com" "two")),
    refresh_down 1700000003);
   (Handle (POST "/api/contact" (sample_body "C" "c@example.com" "three")),
    store_down 1700000004);
   (Handle (GET "/"), healthy 1700000005);
   (Handle (POST "/api/contact" (sample_body "D" "nobody" "four")),
    healthy 1700000006);
   (Handle (POST "/api/contact" (sample_body "E" "e@example.com" "five")),
    mail_down 1700000007)].

(** * Properties *)

(** ** Sample runs *)

Example next_rowid_sample :
  next_rowid [] = 1
  /\ next_rowid [mkRow 1 "A" "a@example.com" "x" None;
                 mkRow 7 "B" "b@example.com" "y" None;
                 mkRow 3 "C" "c@example.com" "z" None] = 8.
Proof. split; reflexivity. Qed.

(** A valid submission with no notifier configuration: the row is written
    and the notifier only prints. *)
Example run_notifier_unconfigured :
  app sample_validate_email
      (POST "/api/contact" (sample_body "A" "a@example.com" "hi"))
      (healthy 1700000000) bare_world
  = (mkResponse 200 (success_body 1),
     mkWorld (Some [mkRow 1 "A" "a@example.com" "hi" (Some 1700000000)]) ∅
             [SessionOpened;
              SqlInsert (mkRow 1 "A" "a@example.com" "hi" (Some 1700000000));
              SqlCommit; SqlSelect 1;
              Print "⚠️ Email not sent: missing GMAIL_USER / GMAIL_APP_PASSWORD / TO_EMAIL env vars";
              SqlRollback; SessionClosed]).
Proof. reflexivity. Qed.

(** A valid submission with a configured notifier and a working
    transport. *)
Example run_mail_sent :
  trace (snd (app sample_validate_email
                  (POST "/api/contact" (sample_body "A" "a@example.com" "hi"))
                  (healthy 1700000000) sample_world))
  = [SessionOpened;
     SqlInsert (mkRow 1 "A" "a@example.com" "hi" (Some 1700000000));
     SqlCommit; SqlSelect 1;
     SmtpConnect "smtp.gmail.com" 465;
     SmtpLogin "owner@example.com" "app-password";
     SmtpSendMessage
       {| Subject := "New contact message from Lunara AI";
          From := "owner@example.com";
          To := "owner@example.com";
          content := email_body (mkContactRequest "A" "a@example.com" "hi") |};
     SmtpQuit;
     Print "✅ Contact email sent successfully";
     SqlRollback; SessionClosed].
Proof. reflexivity. Qed.

(** The transport refuses the login: the handler prints the error and the
    response is the same. *)
Example run_mail_down :
  fst (app sample_validate_email
           (POST "/api/contact" (sample_body "A" "a@example.com" "hi"))
           (mail_down 1700000000) sample_world)
  = mkResponse 200 (success_body 1)
  /\ trace (snd (app sample_validate_email
                     (POST "/api/contact" (sample_body "A" "a@example.com" "hi"))
                     (mail_down 1700000000) sample_world))
     = [SessionOpened;
        SqlInsert (mkRow 1 "A" "a@example.com" "hi" (Some 1700000000));
        SqlCommit; SqlSelect 1;
        SmtpConnect "smtp.gmail.com" 465;
        SmtpLogin "owner@example.com" "app-password";
        SmtpQuit;
        Print "⚠️ Error sending email: Username and Password not accepted";
        SqlRollback; SessionClosed].
Proof. split; reflexivity. Qed.

(** The commit raises: 500, nothing written, the notifier is not reached. *)
Example run_store_down :
  app sample_validate_email
      (POST "/api/contact" (sample_body "A" "a@example.com" "hi"))
      (store_down 1700000000) bare_world
  = (internal_server_error,
     mkWorld (Some []) ∅ [SessionOpened; SqlRollback; SessionClosed]).
Proof. reflexivity. Qed.

(** The refresh raises after the commit: 500, and the row is written; the
    transaction the refresh began is rolled back when the session closes. *)
Example run_refresh_down :
  app sample_validate_email
      (POST "/api/contact" (sample_body "A" "a@example.com" "hi"))
      (refresh_down 1700000000) bare_world
  = (internal_server_error,
     mkWorld (Some [mkRow 1 "A" "a@example.com" "hi" (Some 1700000000)]) ∅
             [SessionOpened;
              SqlInsert (mkRow 1 "A" "a@example.com" "hi" (Some 1700000000));
              SqlCommit; SqlSelect 1; SqlRollback; SessionClosed]).
Proof. reflexivity. Qed.

(** A sender with a second line: the notifier raises while composing the
    message, the handler prints the error, and the answer is still 200
    without any network action. *)
Example run_injected_sender :
  app sample_validate_email
      (POST "/api/contact" (sample_body "A" "a@example.com" "hi"))
      (healthy 1700000000) injected_sender_world
  = (mkResponse 200 (success_body 1),
     mkWorld (Some [mkRow 1 "A" "a@example.com" "hi" (Some 1700000000)])
             (environ injected_sender_world)
             [SessionOpened;
              SqlInsert (mkRow 1 "A" "a@example.com" "hi" (Some 1700000000));
              SqlCommit; SqlSelect 1;
              Print "⚠️ Error sending email: Header values may not contain linefeed or carriage return characters";
              SqlRollback; SessionClosed]).
Proof. reflexivity. Qed.

(** The startup hook on a store without the table, and again. *)
Example run_startup_twice :
  trace (step sample_validate_email Startup (healthy 1700000001)
              (step sample_validate_email Startup (healthy 1700000000) absent_world))
  = [SqlCreateTable; SqlCreateIndex; SqlCommit; Print "✅ Database ready";
     SqlCommit; Print "✅ Database ready"].
Proof. reflexivity. Qed.

(** Line boundaries in the sense of [str.splitlines()]. *)
Example more_than_one_line_samples :
  more_than_one_line "owner@example.com" = false
  /\ more_than_one_line ("a" +:+ nl) = false
  /\ more_than_one_line ("a" +:+ nl +:+ "b") = true
  /\ more_than_one_line ("a" +:+ nl +:+ nl) = true
  /\ more_than_one_line (String (ascii_of_nat 13) (String (ascii_of_nat 10) "")) = false
  /\ more_than_one_line ("a" +:+ String (ascii_of_nat 13) "b") = true.
Proof. repeat split; reflexivity. Qed.

(** The spec's malformed example, and a body without a message. *)
Example run_invalid :
  app sample_validate_email
      (POST "/api/contact" (sample_body "A" "not-an-email" "hi"))
      (healthy 1700000000) bare_world
  = (unprocessable [(["email"], value_error)],
     mkWorld (Some []) ∅ [SessionOpened; SessionClosed])
  /\ fst (app sample_validate_email
              (POST "/api/contact"
                    (JObj [("name", JStr "A"); ("email", JNum 7)]))
              (healthy 1700000000) bare_world)
     = unprocessable [(["email"], string_type); (["message"], missing)].
Proof. split; reflexivity. Qed.

(** ** The storage engine's choice of ids *)

Lemma foldr_max_ge (rows : list Row) (z : Z) :
  z <= foldr (fun r' m => Z.max (row_id r') m) z rows
  /\ Forall (fun r => row_id r <= foldr (fun r' m => Z.max (row_id r') m) z rows) rows.
Proof.
  induction rows as [|r rows [IHz IHrows]]; simpl.
  - split; [lia | constructor].
  - split; [lia |].
    constructor; [lia |].
    eapply Forall_impl; [exact IHrows |].
    simpl. intros x Hx. lia.
Qed.

Lemma next_rowid_fresh (rows : list Row) :
  Forall (fun r => row_id r < next_rowid rows) rows.
Proof.
  destruct rows as [|r rows]; [constructor |].
  unfold next_rowid.
  destruct (foldr_max_ge rows (row_id r)) as [Hz Hrows].
  constructor; [lia |].
  eapply Forall_impl; [exact Hrows |].
  simpl. intros x Hx. lia.
Qed.

Lemma find_fresh_row (rows : list Row) (r : Row) :
  Forall (fun r' => row_id r' < row_id r) rows ->
  List.find (fun r' => Z.eqb (row_id r') (row_id r)) (rows ++ [r]) = Some r.
Proof.
  induction 1 as [|r' rows Hlt _ IH]; simpl.
  - by rewrite Z.eqb_refl.
  - destruct (Z.eqb_spec (row_id r') (row_id r)); [lia | exact IH].
Qed.

Lemma foldr_max_le (rows : list Row) (z M : Z) :
  z <= M ->
  Forall (fun r => row_id r <= M) rows ->
  foldr (fun r' m => Z.max (row_id r') m) z rows <= M.
Proof.
  intros Hz. induction 1 as [|r rows Hr _ IH]; simpl; lia.
Qed.

(** The engine's choice is one more than the largest id. *)
Lemma next_rowid_above_max (rows : list Row) (M : Z) :
  Forall (fun r => row_id r <= M) rows ->
  M ∈ map row_id rows ->
  next_rowid rows = M + 1.
Proof.
  intros Hle Hin.
  destruct rows as [|r rows]; [by apply elem_of_nil in Hin |].
  unfold next_rowid.
  apply Forall_cons in Hle as [Hr Hrows].
  pose proof (foldr_max_le rows (row_id r) M Hr Hrows) as Hupper.
  destruct (foldr_max_ge rows (row_id r)) as [Hz Hge].
  simpl in Hin. apply elem_of_cons in Hin as [-> | Hin]; [lia |].
  apply list_elem_of_fmap in Hin as (r' & -> & Hr').
  rewrite Forall_forall in Hge. specialize (Hge r' Hr'). simpl in Hge. lia.
Qed.

Lemma next_rowid_after_insert (rows : list Row) (r : Row) :
  row_id r = next_rowid rows ->
  next_rowid (rows ++ [r]) = next_rowid rows + 1.
Proof.
  intros Hr. rewrite <- Hr. apply next_rowid_above_max.
  - apply Forall_app. split; [| by repeat constructor].
    eapply Forall_impl; [apply next_rowid_fresh |].
    simpl. intros x Hx. lia.
  - rewrite map_app. set_solver.
Qed.

(** ** The notifier touches nothing but the trace *)

Ltac unfold_m :=
  unfold with_SMTP_SSL, server_login, server_send_message, fault_point,
    try_finally, try_except_Exception, print, emit, os_environ_get,
    os_environ_get_default, ask, bind, ret, raise, with_trace in *.

(** Every path through [send_contact_email] in the environment [env]: the
    three variables, the truthiness guard, the header checks and the four
    fault points of the transport. *)
Ltac notifier_cases env o :=
  unfold send_contact_email, set_header; unfold_m; simpl;
  destruct (env !! "GMAIL_USER") as [?u|];
  destruct (env !! "GMAIL_APP_PASSWORD") as [?p|];
  destruct (env !! "TO_EMAIL") as [?t|]; simpl;
  repeat match goal with
         | |- context [String.eqb ?x ""] => destruct (String.eqb x "") eqn:?; simpl
         end;
  repeat match goal with
         | |- context [more_than_one_line ?x] =>
             destruct (more_than_one_line x) eqn:?; simpl
         end;
  destruct (smtp_connect_fault o) eqn:?, (smtp_login_fault o) eqn:?,
    (smtp_send_fault o) eqn:?, (smtp_quit_fault o) eqn:?;
  simpl; rewrite <- ?(assoc_L (++)); simpl.

Lemma with_trace_nil (s : State) : with_trace s [] = s.
Proof.
  destruct s as [[table env tr] hp new tx]. unfold with_trace. simpl.
  by rewrite app_nil_r.
Qed.

Lemma send_contact_email_frame (data : ContactRequest) (o : Oracle) (s : State) :
  exists r evs,
    send_contact_email data o s = (r, with_trace s evs)
    /\ (r = Ok tt -> evs <> [])
    /\ Forall (fun e => is_notifier_event e = true) evs.
Proof.
  notifier_cases (environ (world s)) o;
    first
      [ eexists _, _;
        (split; [reflexivity
                | split; [intros _; discriminate | by repeat constructor]])
      | eexists _, [];
        (split; [destruct s as [[]]; simpl; by rewrite app_nil_r
                | split; [intros Hok; discriminate Hok | constructor]]) ].
Qed.

Lemma isinstance_Exception_all (e : exn) : isinstance_Exception e = true.
Proof. by destruct e. Qed.

(** The notification step of the handler never raises and only appends
    notifier events to the trace. *)
Lemma notify_frame (payload : ContactRequest) (o : Oracle) (s : State) :
  exists evs,
    try_except_Exception
      (send_contact_email payload)
      (fun e => print ("⚠️ Error sending email: " +:+ exn_str e)) o s
    = (Ok tt, with_trace s evs)
    /\ evs <> []
    /\ Forall (fun e => is_notifier_event e = true) evs.
Proof.
  destruct (send_contact_email_frame payload o s) as (r & evs & Hrun & Hne & Hevs).
  unfold try_except_Exception. rewrite Hrun.
  destruct r as [[]|e].
  - exists evs. split; [done |]. split; [by apply Hne | done].
  - rewrite isinstance_Exception_all.
    exists (evs ++ [Print ("⚠️ Error sending email: " +:+ exn_str e)]).
    split; [| split].
    + unfold print, emit, with_trace. simpl. by rewrite (assoc_L (++)).
    + by destruct evs.
    + apply Forall_app. split; [exact Hevs | by repeat constructor].
Qed.

(** ** The insert, case by case *)

Lemma insert_last {A} (l : list A) (x y : A) :
  <[length l := y]> (l ++ [x]) = l ++ [y].
Proof.
  rewrite insert_app_r_alt by lia.
  by rewrite Nat.sub_diag.
Qed.

Section Insert.

Variables (payload : ContactRequest) (o : Oracle) (w : World)
          (hp : list ContactMessage) (rows : list Row).
Hypothesis Htable : contact_messages w = Some rows.

Let fresh : ContactMessage :=
  mkContactMessage None (req_name payload) (req_email payload)
                   (req_message payload) None.
Let r : Row := inserted_row payload o rows.

Lemma insert_record_commit_fault (e : exn) :
  commit_fault o = Some e ->
  insert_record payload o (mkState w hp [])
  = (Raise e,
     mkState (mkWorld (Some rows) (environ w) (trace w ++ [SqlRollback]))
             (hp ++ [fresh]) []).
Proof.
  intros He. unfold insert_record, ContactMessage_init, db_add, db_commit, bind.
  simpl. by rewrite Htable, He.
Qed.

Lemma insert_record_refresh_fault (e : exn) :
  commit_fault o = None ->
  refresh_fault o = Some e ->
  insert_record payload o (mkState w hp [])
  = (Raise e,
     mkTxState (mkWorld (Some (rows ++ [r])) (environ w)
                        (trace w ++ [SqlInsert r; SqlCommit; SqlSelect (row_id r)]))
               (hp ++ [instance_of_row r]) [] true).
Proof.
  intros Hc He.
  unfold insert_record, ContactMessage_init, db_add, db_commit, db_refresh, bind.
  simpl. rewrite Htable, Hc. simpl.
  rewrite list_lookup_middle by done. simpl.
  rewrite list_lookup_insert_eq by (rewrite length_app; simpl; lia).
  simpl. rewrite He.
  by rewrite insert_last, <- (assoc_L (++)).
Qed.

Lemma insert_record_ok :
  commit_fault o = None ->
  refresh_fault o = None ->
  insert_record payload o (mkState w hp [])
  = (Ok (length hp),
     mkTxState (mkWorld (Some (rows ++ [r])) (environ w)
                        (trace w ++ [SqlInsert r; SqlCommit; SqlSelect (row_id r)]))
               (hp ++ [instance_of_row r]) [] true).
Proof.
  intros Hc He.
  unfold insert_record, ContactMessage_init, db_add, db_commit, db_refresh, bind.
  simpl. rewrite Htable, Hc. simpl.
  rewrite list_lookup_middle by done. simpl.
  rewrite list_lookup_insert_eq by (rewrite length_app; simpl; lia).
  simpl. rewrite He.
  pose proof (find_fresh_row rows r (next_rowid_fresh rows)) as Hfind.
  unfold r, inserted_row in Hfind. simpl in Hfind. rewrite Hfind.
  by rewrite insert_last, insert_last, <- (assoc_L (++)).
Qed.

End Insert.

Lemma insert_record_no_table (payload : ContactRequest) (o : Oracle) (w : World)
    (hp : list ContactMessage) :
  contact_messages w = None ->
  insert_record payload o (mkState w hp [])
  = (Raise (OperationalError "no such table: contact_messages"),
     mkState (mkWorld None (environ w) (trace w ++ [SqlRollback]))
             (hp ++ [mkContactMessage None (req_name payload) (req_email payload)
                                      (req_message payload) None]) []).
Proof.
  intros Htable.
  unfold insert_record, ContactMessage_init, db_add, db_commit, bind.
  simpl. by rewrite Htable.
Qed.

(** [insert_ok] is the condition under which the insert returns. *)
Lemma insert_ok_spec (payload : ContactRequest) (o : Oracle) (w : World)
    (hp : list ContactMessage) :
  insert_ok o w = true
  <-> exists contact s', insert_record payload o (mkState w hp []) = (Ok contact, s').
Proof.
  unfold insert_ok.
  destruct (contact_messages w) as [rows|] eqn:Htable.
  - destruct (commit_fault o) as [e|] eqn:Hc.
    + rewrite (insert_record_commit_fault _ _ _ hp rows Htable e Hc).
      split; [done | by intros (? & ? & ?)].
    + destruct (refresh_fault o) as [e|] eqn:He.
      * rewrite (insert_record_refresh_fault _ _ _ hp rows Htable e Hc He).
        split; [done | by intros (? & ? & ?)].
      * rewrite (insert_record_ok _ _ _ hp rows Htable Hc He).
        split; [eauto | done].
  - rewrite (insert_record_no_table _ _ _ hp Htable).
    split; [done | by intros (? & ? & ?)].
Qed.

(** [submit_contact] is its insert followed by the notification step and
    the construction of the response. *)
Lemma submit_contact_after_insert (payload : ContactRequest) (o : Oracle) (s : State) :
  submit_contact payload o s
  = match insert_record payload o s with
    | (Raise e, s') => (Raise e, s')
    | (Ok contact, s') =>
        (try_except_Exception
           (send_contact_email payload)
           (fun e => print ("⚠️ Error sending email: " +:+ exn_str e));;
         let! contact_id := getattr_id contact in
         ret (JObj [("success", JBool true);
                    ("id", json_of_int contact_id);
                    ("message",
                     JStr "Contact message saved and email sent (if email is configured).")]))
          o s'
    end.
Proof.
  unfold submit_contact, insert_record, bind, ret.
  destruct (ContactMessage_init _ _ _ o s) as [[c|e] s1]; [| done].
  destruct (db_add c o s1) as [[[]|e] s2]; [| done].
  destruct (db_commit o s2) as [[[]|e] s3]; [| done].
  by destruct (db_refresh c o s3) as [[[]|e] s4].
Qed.

Lemma submit_contact_ok (payload : ContactRequest) (o : Oracle) (w : World)
    (hp : list ContactMessage) (rows : list Row) :
  contact_messages w = Some rows ->
  commit_fault o = None ->
  refresh_fault o = None ->
  let r := inserted_row payload o rows in
  exists evs,
    submit_contact payload o (mkState w hp [])
    = (Ok (success_body (next_rowid rows)),
       mkTxState (mkWorld (Some (rows ++ [r])) (environ w)
                          (trace w ++ [SqlInsert r; SqlCommit; SqlSelect (row_id r)] ++ evs))
                 (hp ++ [instance_of_row r]) [] true)
    /\ evs <> []
    /\ Forall (fun e => is_notifier_event e = true) evs.
Proof.
  intros Htable Hc He r.
  rewrite submit_contact_after_insert, (insert_record_ok _ _ _ _ _ Htable Hc He).
  unfold bind at 1.
  match goal with
  | |- context [try_except_Exception ?b ?h o ?s] =>
      destruct (notify_frame payload o s) as (evs & Hrun & Hne & Hevs)
  end.
  rewrite Hrun. exists evs. split; [| done].
  unfold bind, getattr_id, ret, with_trace. simpl.
  rewrite list_lookup_middle by done. simpl.
  by rewrite <- (assoc_L (++)).
Qed.

(** ** Requests to POST /api/contact, case by case *)

Section AppCases.

Variable validate_email : string -> option string.

Lemma post_contact_run (b : json) (o : Oracle) (w : World) :
  app validate_email (POST "/api/contact" b) o w
  = match ContactRequest_validate validate_email b with
    | inl errors => (unprocessable errors, closed (mkState (opened w) [] []))
    | inr payload =>
        match submit_contact payload o (mkState (opened w) [] []) with
        | (Ok r, s) => (mkResponse 200 r, closed s)
        | (Raise _, s) => (internal_server_error, closed s)
        end
    end.
Proof.
  unfold app, run_request, dispatch. simpl.
  unfold contact_route, get_db, SessionLocal, db_close, try_finally, bind, emit.
  simpl.
  destruct (ContactRequest_validate validate_email b) as [errors|payload]; [done |].
  unfold bind, ret, opened, closed.
  destruct (submit_contact payload o _) as [[r|e] s];
    destruct (in_transaction s); simpl; by rewrite <- ?(assoc_L (++)).
Qed.

Lemma post_contact_invalid (b : json) (errors : list validation_error)
    (o : Oracle) (w : World) :
  ContactRequest_validate validate_email b = inl errors ->
  app validate_email (POST "/api/contact" b) o w
  = (unprocessable errors,
     mkWorld (contact_messages w) (environ w)
             (trace w ++ [SessionOpened; SessionClosed])).
Proof.
  intros Hb. rewrite post_contact_run, Hb.
  unfold closed, opened. simpl. by rewrite <- (assoc_L (++)).
Qed.

Section Valid.

Variables (b : json) (payload : ContactRequest) (o : Oracle) (w : World).
Hypothesis Hvalid : ContactRequest_validate validate_email b = inr payload.

Lemma post_contact_no_table :
  contact_messages w = None ->
  app validate_email (POST "/api/contact" b) o w
  = (internal_server_error,
     mkWorld None (environ w)
             (trace w ++ [SessionOpened; SqlRollback; SessionClosed])).
Proof.
  intros Htable.
  rewrite post_contact_run, Hvalid, submit_contact_after_insert.
  rewrite insert_record_no_table by done.
  unfold closed, opened. simpl. by rewrite <- !(assoc_L (++)).
Qed.

Variable rows : list Row.
Hypothesis Htable : contact_messages w = Some rows.

Let r : Row := inserted_row payload o rows.

Lemma post_contact_commit_fault (e : exn) :
  commit_fault o = Some e ->
  app validate_email (POST "/api/contact" b) o w
  = (internal_server_error,
     mkWorld (Some rows) (environ w)
             (trace w ++ [SessionOpened; SqlRollback; SessionClosed])).
Proof.
  intros He.
  rewrite post_contact_run, Hvalid, submit_contact_after_insert.
  rewrite (insert_record_commit_fault _ _ (opened w) _ rows Htable e He).
  unfold closed, opened. simpl. by rewrite <- !(assoc_L (++)).
Qed.

Lemma post_contact_refresh_fault (e : exn) :
  commit_fault o = None ->
  refresh_fault o = Some e ->
  app validate_email (POST "/api/contact" b) o w
  = (internal_server_error,
     mkWorld (Some (rows ++ [r])) (environ w)
             (trace w ++ [SessionOpened; SqlInsert r; SqlCommit;
                          SqlSelect (row_id r); SqlRollback;
                         SessionClosed])).
Proof.
  intros Hc He.
  rewrite post_contact_run, Hvalid, submit_contact_after_insert.
  rewrite (insert_record_refresh_fault _ _ (opened w) _ rows Htable e Hc He).
  unfold closed, opened. simpl. by rewrite <- !(assoc_L (++)).
Qed.

Lemma post_contact_ok :
  commit_fault o = None ->
  refresh_fault o = None ->
  exists evs,
    app validate_email (POST "/api/contact" b) o w
    = (mkResponse 200 (success_body (next_rowid rows)),
       mkWorld (Some (rows ++ [r])) (environ w)
               (trace w ++ [SessionOpened; SqlInsert r; SqlCommit;
                            SqlSelect (row_id r)]
                   ++ evs ++ [SqlRollback; SessionClosed]))
    /\ evs <> []
    /\ Forall (fun e => is_notifier_event e = true) evs.
Proof.
  intros Hc He.
  destruct (submit_contact_ok payload o (opened w) [] rows Htable Hc He)
    as (evs & Hrun & Hne & Hevs).
  exists evs. split; [| done].
  rewrite post_contact_run, Hvalid, Hrun.
  unfold closed, opened. simpl. by rewrite <- !(assoc_L (++)).
Qed.

End Valid.

End AppCases.

(** ** Validation *)

Section Validation.

Variable validate_email : string -> option string.

Lemma validate_rejects_field_error (fields : list (string * json)) :
  (exists errs, str_field "name" fields = inl errs)
  \/ (exists errs, EmailStr_field validate_email "email" fields = inl errs)
  \/ (exists errs, str_field "message" fields = inl errs) ->
  exists errors, ContactRequest_validate validate_email (JObj fields) = inl errors.
Proof.
  unfold ContactRequest_validate.
  intros [[errs H] | [[errs H] | [errs H]]]; rewrite H;
    destruct (str_field "name" fields), (EmailStr_field validate_email "email" fields),
      (str_field "message" fields); try discriminate; eauto.
Qed.

Lemma missing_field_rejected (b : json) :
  missing_field b ->
  exists errors, ContactRequest_validate validate_email b = inl errors.
Proof.
  intros (fields & k & -> & Hk & Hnone).
  apply validate_rejects_field_error.
  repeat (apply elem_of_cons in Hk as [-> | Hk]).
  - left. unfold str_field. rewrite Hnone. eauto.
  - right; left. unfold EmailStr_field. rewrite Hnone. eauto.
  - right; right. unfold str_field. rewrite Hnone. eauto.
  - by apply elem_of_nil in Hk.
Qed.

Lemma invalid_email_rejected (b : json) :
  invalid_email validate_email b ->
  exists errors, ContactRequest_validate validate_email b = inl errors.
Proof.
  intros (fields & v & -> & Hv & Hbad).
  apply validate_rejects_field_error. right; left.
  unfold EmailStr_field. rewrite Hv.
  destruct v; eauto.
  rewrite (Hbad s eq_refl). eauto.
Qed.

(** C1: a POST /api/contact whose body lacks a field, or whose email does
    not parse as an address, gets a 4xx response; the table is left as it
    was, and the only effects are the opening and closing of the request's
    session: no row is written and the notifier is not called. *)
Theorem invalid_submission_rejected_before_effects (b : json) (o : Oracle) (w : World) :
  missing_field b \/ invalid_email validate_email b ->
  let resp := fst (app validate_email (POST "/api/contact" b) o w) in
  let w' := snd (app validate_email (POST "/api/contact" b) o w) in
  400 <= status_code resp < 500
  /\ contact_messages w' = contact_messages w
  /\ environ w' = environ w
  /\ trace w' = trace w ++ [SessionOpened; SessionClosed].
Proof.
  intros Hbad.
  assert (exists errors, ContactRequest_validate validate_email b = inl errors)
    as [errors Herr].
  { destruct Hbad; [by apply missing_field_rejected | by apply invalid_email_rejected]. }
  rewrite (post_contact_invalid _ _ _ _ _ Herr). simpl.
  repeat split; lia.
Qed.

(** C9: GET / answers 200 with the fixed status payload and leaves the
    world (table, environment, trace) exactly as it was, whatever the world
    and the oracle are. *)
Theorem read_root_ok_without_effects (o : Oracle) (w : World) :
  app validate_email (GET "/") o w
  = (mkResponse 200 (JObj [("status", JStr "ok");
                           ("message", JStr "Lunara AI backend is running")]),
     w).
Proof. reflexivity. Qed.

End Validation.

(** The spec's example: an email without an at sign. *)
Lemma invalid_submission_rejected_witness :
  invalid_email sample_validate_email (sample_body "A" "not-an-email" "hi")
  /\ let resp := fst (app sample_validate_email
                          (POST "/api/contact" (sample_body "A" "not-an-email" "hi"))
                          (healthy 1700000000) sample_world) in
     let w' := snd (app sample_validate_email
                        (POST "/api/contact" (sample_body "A" "not-an-email" "hi"))
                        (healthy 1700000000) sample_world) in
     400 <= status_code resp < 500
     /\ contact_messages w' = contact_messages sample_world
     /\ environ w' = environ sample_world
     /\ trace w' = trace sample_world ++ [SessionOpened; SessionClosed].
Proof.
  assert (invalid_email sample_validate_email (sample_body "A" "not-an-email" "hi"))
    as Hbad.
  { exists [("name", JStr "A"); ("email", JStr "not-an-email"); ("message", JStr "hi")],
      (JStr "not-an-email").
    repeat split. intros s [= <-]. reflexivity. }
  split; [exact Hbad |].
  apply (invalid_submission_rejected_before_effects sample_validate_email).
  right. exact Hbad.
Defined.

(** ** The notifier's soft-disable *)

(** C6: when the sender, the credential or the resolved recipient is
    missing from the environment, [send_contact_email] returns normally for
    every submission; all it does is print one line, so the trace gains no
    network action. *)
Theorem send_contact_email_soft_disable (data : ContactRequest) (o : Oracle) (s : State) :
  environ (world s) !! "GMAIL_USER" = None
  \/ environ (world s) !! "GMAIL_APP_PASSWORD" = None
  \/ resolved_recipient (environ (world s)) = None ->
  exists evs,
    send_contact_email data o s = (Ok tt, with_trace s evs)
    /\ Forall (fun e => is_network_event e = false) evs.
Proof.
  intros Hmissing.
  exists [Print "⚠️ Email not sent: missing GMAIL_USER / GMAIL_APP_PASSWORD / TO_EMAIL env vars"].
  split; [| by repeat constructor].
  unfold resolved_recipient in Hmissing.
  unfold send_contact_email, os_environ_get, os_environ_get_default, bind, print, emit.
  simpl.
  destruct (environ (world s) !! "GMAIL_USER") as [u|];
    destruct (environ (world s) !! "GMAIL_APP_PASSWORD") as [p|];
    destruct (environ (world s) !! "TO_EMAIL") as [t|]; simpl;
    try reflexivity;
    try (rewrite orb_true_r; reflexivity);
    destruct Hmissing as [? | [? | ?]]; discriminate.
Qed.

Lemma send_contact_email_soft_disable_witness :
  environ bare_world !! "GMAIL_USER" = None
  /\ exists evs,
       send_contact_email (mkContactRequest "A" "a@example.com" "hi")
                          (healthy 1700000000) (mkState bare_world [] [])
       = (Ok tt, with_trace (mkState bare_world [] []) evs)
       /\ Forall (fun e => is_network_event e = false) evs.
Proof.
  split; [reflexivity |].
  apply (send_contact_email_soft_disable
           (mkContactRequest "A" "a@example.com" "hi")
           (healthy 1700000000) (mkState bare_world [] [])).
  left. reflexivity.
Defined.

(** ** Valid submissions *)

Lemma notifier_event_not_sql (e : event) :
  is_notifier_event e = true -> is_sql_event e = false.
Proof. by destruct e. Qed.

Section Submission.

Variable validate_email : string -> option string.

Variables (b : json) (payload : ContactRequest).
Hypothesis Hvalid : ContactRequest_validate validate_email b = inr payload.

(** C2: whatever the mail transport does, an exception that leaves
    [send_contact_email] is caught by the handler's [except] branch, which
    prints it and goes on; and when the insert has gone through, the request
    answers 200 with the success body and the row is in the table, for every
    environment and every behaviour of the transport. *)
Theorem mail_failure_is_swallowed (o : Oracle) (w : World) (rows : list Row) :
  contact_messages w = Some rows ->
  commit_fault o = None ->
  refresh_fault o = None ->
  (forall s e s',
      send_contact_email payload o s = (Raise e, s') ->
      try_except_Exception
        (send_contact_email payload)
        (fun e => print ("⚠️ Error sending email: " +:+ exn_str e)) o s
      = (Ok tt, with_trace s' [Print ("⚠️ Error sending email: " +:+ exn_str e)]))
  /\ fst (app validate_email (POST "/api/contact" b) o w)
     = mkResponse 200 (success_body (next_rowid rows))
  /\ contact_messages (snd (app validate_email (POST "/api/contact" b) o w))
     = Some (rows ++ [inserted_row payload o rows]).
Proof.
  intros Htable Hc He. split.
  - intros s e s' Hraise. unfold try_except_Exception.
    by rewrite Hraise, isinstance_Exception_all.
  - destruct (post_contact_ok validate_email b payload o w Hvalid rows Htable Hc He)
      as (evs & -> & _).
    by split.
Qed.

(** C3: the effects of a valid submission are ordered.  The trace of the
    request splits into a first part without any notifier event and a second
    part without any statement of the insert (INSERT, COMMIT, SELECT).  When
    the insert goes through, the first part is the opening of the session and
    the whole insert, and the second part is the notifier's events followed by
    the closing of the session, which rolls back the read transaction the
    refresh had begun and writes nothing.  When the insert does not go
    through, the request answers 500 and no notifier event occurs at all. *)
Theorem insert_precedes_notification (o : Oracle) (w : World) :
  let resp := fst (app validate_email (POST "/api/contact" b) o w) in
  let w' := snd (app validate_email (POST "/api/contact" b) o w) in
  exists pre post,
    trace w' = trace w ++ pre ++ post
    /\ Forall (fun e => is_notifier_event e = false) pre
    /\ Forall (fun e => is_insert_event e = false) post
    /\ if insert_ok o w
       then (exists rows,
                contact_messages w = Some rows
                /\ pre = [SessionOpened;
                          SqlInsert (inserted_row payload o rows);
                          SqlCommit;
                          SqlSelect (next_rowid rows)])
            /\ status_code resp = 200
            /\ (exists evs,
                   post = evs ++ [SqlRollback; SessionClosed]
                   /\ evs <> []
                   /\ Forall (fun e => is_notifier_event e = true) evs)
       else status_code resp = 500
            /\ Forall (fun e => is_notifier_event e = false) post.
Proof.
  unfold insert_ok.
  destruct (contact_messages w) as [rows|] eqn:Htable.
  - destruct (commit_fault o) as [e|] eqn:Hc.
    + rewrite (post_contact_commit_fault validate_email b payload o w Hvalid rows Htable e Hc).
      exists [SessionOpened; SqlRollback], [SessionClosed]. simpl.
      repeat split; by repeat constructor.
    + destruct (refresh_fault o) as [e|] eqn:He.
      * rewrite (post_contact_refresh_fault validate_email b payload o w Hvalid
                   rows Htable e Hc He).
        eexists [SessionOpened; SqlInsert _; SqlCommit; SqlSelect _],
          [SqlRollback; SessionClosed].
        simpl. repeat split; by repeat constructor.
      * destruct (post_contact_ok validate_email b payload o w Hvalid rows Htable Hc He)
          as (evs & -> & Hne & Hevs).
        eexists [SessionOpened; SqlInsert _; SqlCommit; SqlSelect _],
          (evs ++ [SqlRollback; SessionClosed]).
        simpl. split; [reflexivity |].
        split; [by repeat constructor |].
        split.
        { apply Forall_app. split; [| by repeat constructor].
          eapply Forall_impl; [exact Hevs |]. by intros []. }
        split; [by exists rows |].
        split; [reflexivity |].
        by exists evs.
  - rewrite (post_contact_no_table validate_email b payload o w Hvalid Htable).
    exists [SessionOpened; SqlRollback], [SessionClosed]. simpl.
    repeat split; by repeat constructor.
Qed.

(** The response to a valid submission is decided by the table and by the
    faults of commit and refresh. *)
Lemma response_decided_by_store (o1 o2 : Oracle) (w1 w2 : World) :
  contact_messages w2 = contact_messages w1 ->
  commit_fault o2 = commit_fault o1 ->
  refresh_fault o2 = refresh_fault o1 ->
  fst (app validate_email (POST "/api/contact" b) o2 w2)
  = fst (app validate_email (POST "/api/contact" b) o1 w1).
Proof.
  intros Htable Hc He.
  destruct (contact_messages w1) as [rows|] eqn:Htable1.
  - destruct (commit_fault o1) as [e|] eqn:Hc1.
    + by rewrite (post_contact_commit_fault _ _ _ o1 w1 Hvalid rows Htable1 e Hc1),
        (post_contact_commit_fault _ _ _ o2 w2 Hvalid rows Htable e Hc).
    + destruct (refresh_fault o1) as [e|] eqn:He1.
      * by rewrite (post_contact_refresh_fault _ _ _ o1 w1 Hvalid rows Htable1 e Hc1 He1),
          (post_contact_refresh_fault _ _ _ o2 w2 Hvalid rows Htable e Hc He).
      * destruct (post_contact_ok _ _ _ o1 w1 Hvalid rows Htable1 Hc1 He1)
          as (evs1 & -> & _).
        by destruct (post_contact_ok _ _ _ o2 w2 Hvalid rows Htable Hc He)
          as (evs2 & -> & _).
  - by rewrite (post_contact_no_table _ _ _ o1 w1 Hvalid Htable1),
      (post_contact_no_table _ _ _ o2 w2 Hvalid Htable).
Qed.

(** C7, amended: a valid submission whose insert goes through (the commit
    and the refresh that follows it) gets a 200 response whose body holds
    [success: true], the id the store assigned and the status message.  A
    submission whose commit goes through and whose refresh raises is
    persisted and answered with a 500.  The response is decided by the store
    alone: two runs that agree on the table and on the faults of commit and
    refresh give the same response, whatever the environment and the mail
    transport do in either. *)
Theorem success_reflects_insert_only (o : Oracle) (w : World) :
  (forall rows,
      contact_messages w = Some rows ->
      insert_ok o w = true ->
      fst (app validate_email (POST "/api/contact" b) o w)
      = mkResponse 200
          (JObj [("success", JBool true);
                 ("id", JNum (next_rowid rows));
                 ("message",
                  JStr "Contact message saved and email sent (if email is configured).")]))
  /\ (forall rows e,
         contact_messages w = Some rows ->
         commit_fault o = None ->
         refresh_fault o = Some e ->
         fst (app validate_email (POST "/api/contact" b) o w) = internal_server_error
         /\ contact_messages (snd (app validate_email (POST "/api/contact" b) o w))
            = Some (rows ++ [inserted_row payload o rows]))
  /\ (forall o2 w2,
         contact_messages w2 = contact_messages w ->
         commit_fault o2 = commit_fault o ->
         refresh_fault o2 = refresh_fault o ->
         fst (app validate_email (POST "/api/contact" b) o2 w2)
         = fst (app validate_email (POST "/api/contact" b) o w)).
Proof.
  split; [| split].
  - intros rows Htable Hok. unfold insert_ok in Hok. rewrite Htable in Hok.
    destruct (commit_fault o) eqn:Hc; [done |].
    destruct (refresh_fault o) eqn:He; [done |].
    by destruct (post_contact_ok validate_email b payload o w Hvalid rows Htable Hc He)
      as (evs & -> & _).
  - intros rows e Htable Hc He.
    by rewrite (post_contact_refresh_fault validate_email b payload o w Hvalid
                  rows Htable e Hc He).
  - intros o2 w2. apply response_decided_by_store.
Qed.

End Submission.

Section EmptyFields.

Variable validate_email : string -> option string.

Lemma wellformed_body_validates (fields : list (string * json)) (n e e' m : string) :
  dict_get "name" fields = Some (JStr n) ->
  dict_get "email" fields = Some (JStr e) ->
  dict_get "message" fields = Some (JStr m) ->
  validate_email e = Some e' ->
  ContactRequest_validate validate_email (JObj fields)
  = inr (mkContactRequest n e' m).
Proof.
  intros Hn He Hm Hv.
  unfold ContactRequest_validate, str_field, EmailStr_field.
  by rewrite Hn, He, Hm, Hv.
Qed.

(** C10: a body whose name or message is the empty string, and whose email
    the validator accepts, passes validation as it is; when the insert goes
    through, the row is written with the empty field and the request answers
    200 with the success body. *)
Theorem empty_name_or_message_accepted (fields : list (string * json))
    (n e e' m : string) (o : Oracle) (w : World) (rows : list Row) :
  dict_get "name" fields = Some (JStr n) ->
  dict_get "email" fields = Some (JStr e) ->
  dict_get "message" fields = Some (JStr m) ->
  validate_email e = Some e' ->
  n = "" \/ m = "" ->
  contact_messages w = Some rows ->
  insert_ok o w = true ->
  ContactRequest_validate validate_email (JObj fields)
  = inr (mkContactRequest n e' m)
  /\ fst (app validate_email (POST "/api/contact" (JObj fields)) o w)
     = mkResponse 200 (success_body (next_rowid rows))
  /\ contact_messages (snd (app validate_email (POST "/api/contact" (JObj fields)) o w))
     = Some (rows ++ [mkRow (next_rowid rows) n e' m (Some (utcnow o))]).
Proof.
  intros Hn He Hm Hv _ Htable Hok.
  pose proof (wellformed_body_validates fields n e e' m Hn He Hm Hv) as Hvalid.
  split; [exact Hvalid |].
  unfold insert_ok in Hok. rewrite Htable in Hok.
  destruct (commit_fault o) eqn:Hc; [done |].
  destruct (refresh_fault o) eqn:Hr; [done |].
  by destruct (post_contact_ok validate_email _ _ o w Hvalid rows Htable Hc Hr)
    as (evs & -> & _).
Qed.

End EmptyFields.

(** *** The theorems above on concrete requests *)

Lemma mail_failure_is_swallowed_witness :
  ContactRequest_validate sample_validate_email (sample_body "A" "a@example.com" "hi")
  = inr (mkContactRequest "A" "a@example.com" "hi")
  /\ fst (send_contact_email (mkContactRequest "A" "a@example.com" "hi")
                             (mail_down 1700000000) (mkState sample_world [] []))
     = Raise (SMTPAuthenticationError "Username and Password not accepted")
  /\ fst (app sample_validate_email
              (POST "/api/contact" (sample_body "A" "a@example.com" "hi"))
              (mail_down 1700000000) sample_world)
     = mkResponse 200 (success_body 1)
  /\ contact_messages
       (snd (app sample_validate_email
                 (POST "/api/contact" (sample_body "A" "a@example.com" "hi"))
                 (mail_down 1700000000) sample_world))
     = Some [mkRow 1 "A" "a@example.com" "hi" (Some 1700000000)].
Proof.
  split; [reflexivity |].
  split; [reflexivity |].
  exact (proj2 (mail_failure_is_swallowed sample_validate_email
                  (sample_body "A" "a@example.com" "hi")
                  (mkContactRequest "A" "a@example.com" "hi") eq_refl
                  (mail_down 1700000000) sample_world [] eq_refl eq_refl eq_refl)).
Defined.

Lemma insert_precedes_notification_witness :
  ContactRequest_validate sample_validate_email (sample_body "A" "a@example.com" "hi")
  = inr (mkContactRequest "A" "a@example.com" "hi")
  /\ exists pre post,
       trace (snd (app sample_validate_email
                       (POST "/api/contact" (sample_body "A" "a@example.com" "hi"))
                       (mail_down 1700000000) sample_world))
       = trace sample_world ++ pre ++ post
       /\ Forall (fun e => is_notifier_event e = false) pre
       /\ Forall (fun e => is_insert_event e = false) post
       /\ (exists rows,
              contact_messages sample_world = Some rows
              /\ pre = [SessionOpened;
                        SqlInsert (inserted_row
                                     (mkContactRequest "A" "a@example.com" "hi")
                                     (mail_down 1700000000) rows);
                        SqlCommit;
                        SqlSelect (next_rowid rows)])
          /\ status_code
               (fst (app sample_validate_email
                         (POST "/api/contact" (sample_body "A" "a@example.com" "hi"))
                         (mail_down 1700000000) sample_world)) = 200
          /\ (exists evs,
                 post = evs ++ [SqlRollback; SessionClosed]
                 /\ evs <> []
                 /\ Forall (fun e => is_notifier_event e = true) evs).
Proof.
  split; [reflexivity |].
  exact (insert_precedes_notification sample_validate_email
           (sample_body "A" "a@example.com" "hi")
           (mkContactRequest "A" "a@example.com" "hi") eq_refl
           (mail_down 1700000000) sample_world).
Defined.

Lemma success_reflects_insert_only_witness :
  ContactRequest_validate sample_validate_email (sample_body "A" "a@example.com" "hi")
  = inr (mkContactRequest "A" "a@example.com" "hi")
  /\ fst (app sample_validate_email
              (POST "/api/contact" (sample_body "A" "a@example.com" "hi"))
              (healthy 1700000000) sample_world)
     = mkResponse 200 (success_body 1)
  /\ fst (app sample_validate_email
              (POST "/api/contact" (sample_body "A" "a@example.com" "hi"))
              (mail_down 1700000000) bare_world)
     = fst (app sample_validate_email
                (POST "/api/contact" (sample_body "A" "a@example.com" "hi"))
                (healthy 1700000000) sample_world).
Proof.
  split; [reflexivity |].
  destruct (success_reflects_insert_only sample_validate_email
              (sample_body "A" "a@example.com" "hi")
              (mkContactRequest "A" "a@example.com" "hi") eq_refl
              (healthy 1700000000) sample_world) as (Hok & _ & Hsame).
  split.
  - exact (Hok [] eq_refl eq_refl).
  - exact (Hsame (mail_down 1700000000) bare_world eq_refl eq_refl eq_refl).
Defined.

(** C7, as stated, fails: the commit goes through and the refresh raises,
    so the row of the submission is in the table, and the answer is a 500. *)
Lemma persisted_means_success_counterexample :
  ~ persisted_means_success sample_validate_email
      (sample_body "A" "a@example.com" "hi")
      (mkContactRequest "A" "a@example.com" "hi")
      (refresh_down 1700000000) sample_world.
Proof.
  intros Hclaim.
  specialize (Hclaim eq_refl [] eq_refl eq_refl).
  discriminate Hclaim.
Qed.

Lemma empty_name_or_message_accepted_witness :
  ContactRequest_validate sample_validate_email (sample_body "" "a@example.com" "")
  = inr (mkContactRequest "" "a@example.com" "")
  /\ fst (app sample_validate_email
              (POST "/api/contact" (sample_body "" "a@example.com" ""))
              (healthy 1700000000) sample_world)
     = mkResponse 200 (success_body 1)
  /\ contact_messages
       (snd (app sample_validate_email
                 (POST "/api/contact" (sample_body "" "a@example.com" ""))
                 (healthy 1700000000) sample_world))
     = Some [mkRow 1 "" "a@example.com" "" (Some 1700000000)].
Proof.
  apply (empty_name_or_message_accepted sample_validate_email
           [("name", JStr ""); ("email", JStr "a@example.com"); ("message", JStr "")]
           "" "a@example.com" "a@example.com" ""
           (healthy 1700000000) sample_world []);
    try reflexivity.
  left. reflexivity.
Defined.

(** ** Atomicity of the insert *)

(** C4, as stated, fails: when the commit has gone through and the refresh
    that follows it raises, the caller gets the error and the row is in the
    table. *)
Lemma insert_all_or_nothing_counterexample :
  ~ insert_all_or_nothing (mkContactRequest "A" "a@example.com" "hi")
                          (refresh_down 1700000000)
                          (mkState bare_world [] []).
Proof.
  unfold insert_all_or_nothing.
  rewrite (insert_record_refresh_fault _ (refresh_down 1700000000) bare_world []
             [] eq_refl (OperationalError "database is locked") eq_refl eq_refl).
  simpl. discriminate.
Qed.

(** C4, amended: the insert is atomic at its commit.  A call that returns
    hands back the instance of a committed row with its id populated.  A call
    that raises has either failed at the commit, and the table is as it was,
    or failed at the refresh after a successful commit, and the table holds
    the complete row.  No other table can result, so no partial record ever
    exists. *)
Theorem insert_atomic_at_commit (payload : ContactRequest) (o : Oracle)
    (w : World) (hp : list ContactMessage) :
  match insert_record payload o (mkState w hp []) with
  | (Ok contact, s') =>
      exists rows,
        contact_messages w = Some rows
        /\ contact_messages (world s')
           = Some (rows ++ [inserted_row payload o rows])
        /\ heap s' !! contact
           = Some (instance_of_row (inserted_row payload o rows))
        /\ id (instance_of_row (inserted_row payload o rows))
           = Some (next_rowid rows)
  | (Raise e, s') =>
      ((contact_messages w = None \/ commit_fault o = Some e)
       /\ contact_messages (world s') = contact_messages w)
      \/ (commit_fault o = None
          /\ refresh_fault o = Some e
          /\ exists rows,
               contact_messages w = Some rows
               /\ contact_messages (world s')
                  = Some (rows ++ [inserted_row payload o rows]))
  end.
Proof.
  destruct (contact_messages w) as [rows|] eqn:Htable.
  - destruct (commit_fault o) as [e|] eqn:Hc.
    + rewrite (insert_record_commit_fault _ _ _ hp rows Htable e Hc).
      left. simpl. split; [by right | done].
    + destruct (refresh_fault o) as [e|] eqn:He.
      * rewrite (insert_record_refresh_fault _ _ _ hp rows Htable e Hc He).
        right. simpl. repeat split. by exists rows.
      * rewrite (insert_record_ok _ _ _ hp rows Htable Hc He).
        exists rows. simpl. repeat split.
        by rewrite list_lookup_middle.
  - rewrite (insert_record_no_table _ _ _ hp Htable).
    left. simpl. split; [by left | done].
Qed.

(** ** The table only grows *)

Section Growth.

Variable validate_email : string -> option string.

(** What a valid submission does to the table and which id it answers. *)
Lemma valid_submission_step (b : json) (payload : ContactRequest)
    (o : Oracle) (w : World) :
  ContactRequest_validate validate_email b = inr payload ->
  let resp := fst (app validate_email (POST "/api/contact" b) o w) in
  let w' := snd (app validate_email (POST "/api/contact" b) o w) in
  (exists extra, table_ids w' = table_ids w ++ extra)
  /\ (forall i, response_id resp = Some i ->
                Forall (fun j => j < i) (table_ids w) /\ i ∈ table_ids w')
  /\ (insert_ok o w = true ->
      status_code resp = 200 /\ is_Some (response_id resp)
      /\ is_Some (contact_messages w')).
Proof.
  intros Hvalid. unfold insert_ok, table_ids.
  destruct (contact_messages w) as [rows|] eqn:Htable.
  - destruct (commit_fault o) as [e|] eqn:Hc.
    + rewrite (post_contact_commit_fault _ _ _ o w Hvalid rows Htable e Hc). simpl.
      split; [exists []; by rewrite app_nil_r |]. by split.
    + destruct (refresh_fault o) as [e|] eqn:He.
      * rewrite (post_contact_refresh_fault _ _ _ o w Hvalid rows Htable e Hc He).
        simpl. split; [eexists; apply map_app |]. by split.
      * destruct (post_contact_ok _ _ _ o w Hvalid rows Htable Hc He)
          as (evs & -> & _).
        simpl. split; [eexists; apply map_app |].
        split.
        { intros i [= <-]. split.
          - apply Forall_fmap. apply next_rowid_fresh.
          - rewrite map_app. set_solver. }
        intros _. repeat split; eauto.
  - rewrite (post_contact_no_table _ _ _ o w Hvalid Htable). simpl.
    split; [by exists [] |]. by split.
Qed.

(** A valid submission moves the next id of the table by at most one, and
    the id it answers is the next id of the table it found. *)
Lemma valid_submission_next_rowid (b : json) (payload : ContactRequest)
    (o : Oracle) (w : World) :
  ContactRequest_validate validate_email b = inr payload ->
  let resp := fst (app validate_email (POST "/api/contact" b) o w) in
  let w' := snd (app validate_email (POST "/api/contact" b) o w) in
  next_rowid (table_rows w') <= next_rowid (table_rows w) + 1
  /\ forall i, response_id resp = Some i -> i = next_rowid (table_rows w).
Proof.
  intros Hvalid. unfold table_rows.
  destruct (contact_messages w) as [rows|] eqn:Htable.
  - destruct (commit_fault o) as [e|] eqn:Hc.
    + rewrite (post_contact_commit_fault _ _ _ o w Hvalid rows Htable e Hc). simpl.
      split; [lia | done].
    + destruct (refresh_fault o) as [e|] eqn:He.
      * rewrite (post_contact_refresh_fault _ _ _ o w Hvalid rows Htable e Hc He).
        simpl.
        rewrite (next_rowid_after_insert rows (inserted_row payload o rows) eq_refl).
        split; [lia | done].
      * destruct (post_contact_ok _ _ _ o w Hvalid rows Htable Hc He)
          as (evs & -> & _).
        simpl.
        rewrite (next_rowid_after_insert rows (inserted_row payload o rows) eq_refl).
        split; [lia | by intros i [= <-]].
  - rewrite (post_contact_no_table _ _ _ o w Hvalid Htable). simpl.
    split; [lia | done].
Qed.

(** Every operation leaves the rows of the table in place and stamps the
    rows it adds with the clock reading of that operation. *)
Lemma step_extends_table (op : operation) (o : Oracle) (w : World) (rows : list Row) :
  contact_messages w = Some rows ->
  exists extra,
    contact_messages (step validate_email op o w) = Some (rows ++ extra)
    /\ Forall (fun r => row_created_at r = Some (utcnow o)) extra.
Proof.
  intros Htable.
  assert (exists extra,
             contact_messages w = Some (rows ++ extra)
             /\ Forall (fun r => row_created_at r = Some (utcnow o)) extra)
    as Hsame by (exists []; by rewrite app_nil_r).
  destruct op as [|[path|path b]]; unfold step.
  - unfold run_request, on_startup, create_db_and_tables, get_world, bind, print, emit.
    simpl. by rewrite Htable.
  - unfold app, run_request, dispatch, root_route, read_root, bind, ret.
    by repeat case_match; simplify_eq.
  - destruct (String.eqb_spec path "/api/contact") as [-> | Hpath].
    + destruct (ContactRequest_validate validate_email b) as [errors|payload] eqn:Hb.
      * by rewrite (post_contact_invalid _ _ _ o w Hb).
      * destruct (commit_fault o) as [e|] eqn:Hc.
        { rewrite (post_contact_commit_fault _ _ _ o w Hb rows Htable e Hc).
          simpl. exists []. by rewrite app_nil_r. }
        destruct (refresh_fault o) as [e|] eqn:He.
        { rewrite (post_contact_refresh_fault _ _ _ o w Hb rows Htable e Hc He).
          simpl. eexists. split; [reflexivity |]. by repeat constructor. }
        destruct (post_contact_ok _ _ _ o w Hb rows Htable Hc He) as (evs & -> & _).
        simpl. eexists. split; [reflexivity |]. by repeat constructor.
    + apply String.eqb_neq in Hpath.
      unfold app, run_request, dispatch, ret. rewrite Hpath.
      by repeat case_match; simplify_eq.
Qed.

End Growth.

(** ** Sequences of requests *)

Section Sequences.

Variable validate_email : string -> option string.

(** The response to the [k]-th request of a sequence is the response of the
    application in the world the first [k] requests leave behind. *)
Lemma serve_lookup (reqs : list (Request * Oracle)) (w : World) (k : nat)
    (req : Request) (o : Oracle) :
  reqs !! k = Some (req, o) ->
  fst (serve validate_email reqs w) !! k
  = Some (fst (app validate_email req o (snd (serve validate_email (take k reqs) w)))).
Proof.
  revert w k. induction reqs as [|[req0 o0] rest IH]; intros w k Hk; [done |].
  destruct k as [|k]; simpl in Hk |- *.
  - injection Hk as -> ->.
    destruct (app validate_email req o w) as [resp w1].
    by destruct (serve validate_email rest w1).
  - destruct (app validate_email req0 o0 w) as [resp0 w1].
    specialize (IH w1 k Hk).
    destruct (serve validate_email rest w1) as [resps w2].
    by destruct (serve validate_email (take k rest) w1).
Qed.

(** The ids a sequence of valid submissions answers stay below the id that
    follows the largest id of the table by the length of the sequence. *)
Lemma serve_ids_below (reqs : list (Request * Oracle)) (w : World) :
  Forall (fun ro => valid_submission validate_email (fst ro)) reqs ->
  Forall (fun i => i < next_rowid (table_rows w) + Z.of_nat (length reqs))
         (omap response_id (fst (serve validate_email reqs w))).
Proof.
  revert w. induction reqs as [|[req o] rest IH]; intros w Hvalid; [constructor |].
  apply Forall_cons in Hvalid as [(b & payload & Hreq & Hb) Hrest].
  simpl in Hreq. subst req.
  pose proof (valid_submission_next_rowid validate_email b payload o w Hb) as Hstep.
  cbv zeta in Hstep. simpl serve.
  destruct (app validate_email (POST "/api/contact" b) o w) as [resp w1].
  simpl in Hstep. destruct Hstep as [Hnext Hid].
  specialize (IH w1 Hrest).
  destruct (serve validate_email rest w1) as [resps w2].
  simpl in IH. simpl fst. simpl omap.
  assert (Forall (fun i => i < next_rowid (table_rows w)
                               + Z.of_nat (length ((POST "/api/contact" b, o) :: rest)))
                 (omap response_id resps)) as Hrest_below.
  { eapply Forall_impl; [exact IH |]. simpl. intros i Hi. lia. }
  destruct (response_id resp) as [i|]; [| exact Hrest_below].
  constructor; [| exact Hrest_below].
  rewrite (Hid i eq_refl). simpl. lia.
Qed.

(** C5: in every sequence of valid submissions for which the table has
    room below the largest id the engine can store, the ids answered are
    strictly increasing, hence pairwise distinct, and the id a request
    answers is greater than every id the table holds when the request
    arrives, that is, than every id assigned before it; all of them stay
    within the engine's range.  This holds whatever the storage engine and
    the mail transport do.  When the table exists and neither commit nor
    refresh faults, every request of the sequence answers 200 and carries an
    id. *)
Theorem ids_strictly_increasing (reqs : list (Request * Oracle)) (w : World) :
  Forall (fun ro => valid_submission validate_email (fst ro)) reqs ->
  rowid_headroom w (length reqs) ->
  let resps := fst (serve validate_email reqs w) in
  let ids := omap response_id resps in
  StronglySorted Z.lt ids
  /\ Forall (fun i => Forall (fun j => j < i) (table_ids w)) ids
  /\ (forall k req o,
         reqs !! k = Some (req, o) ->
         let wk := snd (serve validate_email (take k reqs) w) in
         resps !! k = Some (fst (app validate_email req o wk))
         /\ forall i,
              response_id (fst (app validate_email req o wk)) = Some i ->
              Forall (fun j => j < i) (table_ids wk))
  /\ (is_Some (contact_messages w) ->
      Forall (fun ro => commit_fault (snd ro) = None
                        /\ refresh_fault (snd ro) = None) reqs ->
      Forall (fun resp => status_code resp = 200) resps
      /\ length ids = length reqs)
  /\ Forall (fun i => i <= max_rowid) ids.
Proof.
  intros Hvalid Hroom.
  assert (Forall (fun i => i <= max_rowid)
                 (omap response_id (fst (serve validate_email reqs w)))) as Hrange.
  { eapply Forall_impl; [exact (serve_ids_below reqs w Hvalid) |].
    unfold rowid_headroom in Hroom. simpl. intros i Hi. lia. }
  clear Hroom.
  assert (forall k req o,
             reqs !! k = Some (req, o) ->
             let wk := snd (serve validate_email (take k reqs) w) in
             fst (serve validate_email reqs w) !! k
             = Some (fst (app validate_email req o wk))
             /\ forall i,
                  response_id (fst (app validate_email req o wk)) = Some i ->
                  Forall (fun j => j < i) (table_ids wk)) as Hat.
  { intros k req o Hk wk. split; [by apply serve_lookup |].
    intros i Hi.
    pose proof (Forall_lookup_1 _ _ _ _ Hvalid Hk) as (b & payload & Hreq & Hb).
    simpl in Hreq. subst req.
    by destruct (valid_submission_step validate_email b payload o wk Hb)
      as (_ & Hid & _), (Hid i Hi). }
  cut (StronglySorted Z.lt (omap response_id (fst (serve validate_email reqs w)))
       /\ Forall (fun i => Forall (fun j => j < i) (table_ids w))
                 (omap response_id (fst (serve validate_email reqs w)))
       /\ (is_Some (contact_messages w) ->
           Forall (fun ro => commit_fault (snd ro) = None
                             /\ refresh_fault (snd ro) = None) reqs ->
           Forall (fun resp => status_code resp = 200)
                  (fst (serve validate_email reqs w))
           /\ length (omap response_id (fst (serve validate_email reqs w)))
              = length reqs)).
  { intros (Hsorted & Hbound & Hall). cbv zeta.
    exact (conj Hsorted (conj Hbound (conj Hat (conj Hall Hrange)))). }
  clear Hat Hrange. revert w. induction reqs as [|[req o] rest IH]; intros w.
  - simpl. repeat split; constructor.
  - apply Forall_cons in Hvalid as [(b & payload & Hreq & Hb) Hrest].
    simpl in Hreq. subst req.
    pose proof (valid_submission_step validate_email b payload o w Hb) as Hstep.
    cbv zeta in Hstep. simpl serve.
    destruct (app validate_email (POST "/api/contact" b) o w) as [resp w1].
    simpl in Hstep. destruct Hstep as ([extra Hgrow] & Hid & Hok).
    specialize (IH Hrest w1).
    destruct (serve validate_email rest w1) as [resps w2].
    simpl in IH. destruct IH as (Hsorted & Hbound & Hall).
    simpl fst. simpl omap.
    destruct (response_id resp) as [i|] eqn:Hi.
    + destruct (Hid i eq_refl) as [Hlt Hin].
      split; [| split].
      * constructor; [exact Hsorted |].
        eapply Forall_impl; [exact Hbound |].
        intros i' Hi'. simpl in Hi'. rewrite Forall_forall in Hi'. by apply Hi'.
      * constructor; [exact Hlt |].
        eapply Forall_impl; [exact Hbound |].
        intros i' Hi'. simpl in Hi'. rewrite Hgrow in Hi'.
        by apply Forall_app in Hi' as [? _].
      * intros [rows Hrows] Hhealthy.
        apply Forall_cons in Hhealthy as [[Hc He] Hhealthy]. simpl in Hc, He.
        assert (insert_ok o w = true) as Hgo
            by (unfold insert_ok; by rewrite Hrows, Hc, He).
        destruct (Hok Hgo) as (Hstatus & _ & Hsome).
        destruct (Hall Hsome Hhealthy) as [Hresps Hlen].
        split; [by constructor |]. simpl. f_equal. exact Hlen.
    + split; [exact Hsorted |].
      split.
      * eapply Forall_impl; [exact Hbound |].
        intros i' Hi'. simpl in Hi'. rewrite Hgrow in Hi'.
        by apply Forall_app in Hi' as [? _].
      * intros [rows Hrows] Hhealthy.
        apply Forall_cons in Hhealthy as [[Hc He] Hhealthy]. simpl in Hc, He.
        assert (insert_ok o w = true) as Hgo
            by (unfold insert_ok; by rewrite Hrows, Hc, He).
        destruct (Hok Hgo) as (_ & [i' Hsome] & _). congruence.
Qed.

(** C8: a row gets its [created_at] when it is inserted, from the clock
    reading of the request that inserts it, and no operation of the system
    (the startup hook, any request) touches a row that is already in the
    table: after one operation, and after any sequence of operations, the
    rows that were there are still there, unchanged and in place. *)
Theorem created_at_set_once (w : World) (rows : list Row) :
  contact_messages w = Some rows ->
  (forall op o,
      exists extra,
        contact_messages (step validate_email op o w) = Some (rows ++ extra)
        /\ Forall (fun r => row_created_at r = Some (utcnow o)) extra)
  /\ (forall ops,
         exists extra,
           contact_messages (run_ops validate_email ops w) = Some (rows ++ extra)).
Proof.
  intros Htable. split.
  - intros op o. by apply step_extends_table.
  - intros ops. revert w rows Htable.
    induction ops as [|[op o] ops IH]; intros w rows Htable.
    + exists []. by rewrite app_nil_r.
    + destruct (step_extends_table validate_email op o w rows Htable)
        as (extra1 & Hstep & _).
      destruct (IH _ _ Hstep) as [extra2 Hrun].
      exists (extra1 ++ extra2). simpl. rewrite Hrun. by rewrite (assoc_L (++)).
Qed.

End Sequences.

Lemma ids_strictly_increasing_witness :
  let reqs :=
    [(POST "/api/contact" (sample_body "A" "a@example.com" "one"), healthy 1700000001);
     (POST "/api/contact" (sample_body "B" "b@example.com" "two"), mail_down 1700000002);
     (POST "/api/contact" (sample_body "C" "c@example.com" "three"), refresh_down 1700000003);
     (POST "/api/contact" (sample_body "" "d@example.com" "four"), healthy 1700000004)] in
  Forall (fun ro => valid_submission sample_validate_email (fst ro)) reqs
  /\ rowid_headroom sample_world (length reqs)
  /\ omap response_id (fst (serve sample_validate_email reqs sample_world)) = [1; 2; 4]
  /\ table_ids (snd (serve sample_validate_email (take 3 reqs) sample_world)) = [1; 2; 3]
  /\ StronglySorted Z.lt
       (omap response_id (fst (serve sample_validate_email reqs sample_world))).
Proof.
  intros reqs.
  assert (Forall (fun ro => valid_submission sample_validate_email (fst ro)) reqs)
    as Hvalid.
  { repeat constructor; eexists _, _; (split; [reflexivity |]); reflexivity. }
  assert (rowid_headroom sample_world (length reqs)) as Hroom
      by (vm_compute; discriminate).
  split; [exact Hvalid |].
  split; [exact Hroom |].
  split; [reflexivity |].
  split; [reflexivity |].
  exact (proj1 (ids_strictly_increasing sample_validate_email reqs sample_world
                  Hvalid Hroom)).
Defined.

Lemma created_at_set_once_witness :
  contact_messages sample_world = Some []
  /\ contact_messages
       (step sample_validate_email
             (Handle (POST "/api/contact" (sample_body "A" "a@example.com" "hi")))
             (healthy 1700000000) sample_world)
     = Some [mkRow 1 "A" "a@example.com" "hi" (Some 1700000000)]
  /\ exists extra,
       contact_messages
         (run_ops sample_validate_email
                  [(Handle (POST "/api/contact" (sample_body "B" "b@example.com" "yo")),
                    mail_down 1800000000);
                   (Startup, healthy 1800000001);
                   (Handle (GET "/"), healthy 1800000002)]
                  (step sample_validate_email
                        (Handle (POST "/api/contact" (sample_body "A" "a@example.com" "hi")))
                        (healthy 1700000000) sample_world))
       = Some ([mkRow 1 "A" "a@example.com" "hi" (Some 1700000000)] ++ extra).
Proof.
  split; [reflexivity |].
  split; [reflexivity |].
  exact (proj2 (created_at_set_once sample_validate_email
                  (step sample_validate_email
                        (Handle (POST "/api/contact" (sample_body "A" "a@example.com" "hi")))
                        (healthy 1700000000) sample_world)
                  [mkRow 1 "A" "a@example.com" "hi" (Some 1700000000)] eq_refl)
               [(Handle (POST "/api/contact" (sample_body "B" "b@example.com" "yo")),
                 mail_down 1800000000);
                (Startup, healthy 1800000001);
                (Handle (GET "/"), healthy 1800000002)]).
Defined.

(** * Further properties *)

(** ** The notifier in closed form *)

Lemma send_contact_email_run (data : ContactRequest) (o : Oracle) (s : State) :
  send_contact_email data o s
  = (fst (notifier_outcome (environ (world s)) o data),
     with_trace s (snd (notifier_outcome (environ (world s)) o data))).
Proof.
  unfold notifier_outcome.
  notifier_cases (environ (world s)) o;
    first [reflexivity | destruct s as [[]]; simpl; by rewrite app_nil_r].
Qed.

Lemma notify_run (payload : ContactRequest) (o : Oracle) (s : State) :
  try_except_Exception
    (send_contact_email payload)
    (fun e => print ("⚠️ Error sending email: " +:+ exn_str e)) o s
  = (Ok tt, with_trace s (notify_events (environ (world s)) o payload)).
Proof.
  unfold try_except_Exception, notify_events.
  rewrite send_contact_email_run.
  destruct (notifier_outcome (environ (world s)) o payload) as [[[]|e] evs]; simpl.
  - reflexivity.
  - rewrite isinstance_Exception_all.
    unfold print, emit, with_trace. simpl. by rewrite (assoc_L (++)).
Qed.

Lemma notify_events_notifier (env : gmap string string) (o : Oracle)
    (payload : ContactRequest) :
  Forall (fun e => is_notifier_event e = true) (notify_events env o payload).
Proof.
  destruct (notify_frame payload o (mkState (mkWorld None env []) [] []))
    as (evs & Hrun & _ & Hevs).
  rewrite notify_run in Hrun. unfold with_trace in Hrun. simpl in Hrun.
  by injection Hrun as ->.
Qed.

(** ** POST /api/contact in closed form *)

Section ClosedForm.

Variable validate_email : string -> option string.

Lemma post_contact_exact (b : json) (o : Oracle) (w : World) :
  app validate_email (POST "/api/contact" b) o w
  = match ContactRequest_validate validate_email b with
    | inl errors =>
        (unprocessable errors,
         mkWorld (contact_messages w) (environ w)
                 (trace w ++ [SessionOpened; SessionClosed]))
    | inr payload =>
        match contact_messages w with
        | None =>
            (internal_server_error,
             mkWorld None (environ w)
                     (trace w ++ [SessionOpened; SqlRollback; SessionClosed]))
        | Some rows =>
            let r := inserted_row payload o rows in
            match commit_fault o, refresh_fault o with
            | Some _, _ =>
                (internal_server_error,
                 mkWorld (Some rows) (environ w)
                         (trace w ++ [SessionOpened; SqlRollback; SessionClosed]))
            | None, Some _ =>
                (internal_server_error,
                 mkWorld (Some (rows ++ [r])) (environ w)
                         (trace w ++ [SessionOpened; SqlInsert r; SqlCommit;
                                      SqlSelect (row_id r); SqlRollback;
                         SessionClosed]))
            | None, None =>
                (mkResponse 200 (success_body (row_id r)),
                 mkWorld (Some (rows ++ [r])) (environ w)
                         (trace w ++ [SessionOpened; SqlInsert r; SqlCommit;
                                      SqlSelect (row_id r)]
                                 ++ notify_events (environ w) o payload
                                 ++ [SqlRollback; SessionClosed]))
            end
        end
    end.
Proof.
  destruct (ContactRequest_validate validate_email b) as [errors|payload] eqn:Hb.
  { by apply post_contact_invalid. }
  destruct (contact_messages w) as [rows|] eqn:Htable.
  2: { by apply (post_contact_no_table validate_email b payload). }
  cbv zeta.
  destruct (commit_fault o) as [e|] eqn:Hc.
  { by apply (post_contact_commit_fault validate_email b payload o w Hb rows Htable e). }
  destruct (refresh_fault o) as [e|] eqn:He.
  { by apply (post_contact_refresh_fault validate_email b payload o w Hb rows Htable e). }
  rewrite post_contact_run, Hb, submit_contact_after_insert.
  rewrite (insert_record_ok payload o (opened w) [] rows Htable Hc He).
  unfold bind at 1. rewrite notify_run.
  unfold bind, getattr_id, ret, with_trace, closed, opened. simpl.
  by rewrite <- !(assoc_L (++)).
Qed.

(** Every request other than a POST to /api/contact leaves the world as
    it is. *)
Lemma other_request_no_effect (req : Request) (o : Oracle) (w : World) :
  (forall b, req <> POST "/api/contact" b) ->
  snd (app validate_email req o w) = w.
Proof.
  intros Hother. unfold app, run_request, dispatch.
  destruct req as [path|path b].
  - unfold root_route, read_root, bind, ret. by repeat case_match; simplify_eq.
  - destruct (String.eqb_spec path "/api/contact") as [-> | Hpath].
    + by destruct (Hother b).
    + unfold ret. by repeat case_match; simplify_eq.
Qed.

End ClosedForm.

(** ** The notifier, case by case *)






(** X7: a variable that is set to the empty string counts as missing.  This
    holds for the sender and the credential, and also for [TO_EMAIL]: set to
    the empty string it does not fall back to the sender, and the notifier
    prints its warning and returns without any network action. *)
Theorem notifier_blank_value_disables (data : ContactRequest) (o : Oracle) (s : State) :
  environ (world s) !! "GMAIL_USER" = Some ""
  \/ environ (world s) !! "GMAIL_APP_PASSWORD" = Some ""
  \/ environ (world s) !! "TO_EMAIL" = Some "" ->
  send_contact_email data o s
  = (Ok tt,
     with_trace s [Print "⚠️ Email not sent: missing GMAIL_USER / GMAIL_APP_PASSWORD / TO_EMAIL env vars"]).
Proof.
  intros Hblank.
  unfold send_contact_email, os_environ_get, os_environ_get_default, bind, print, emit.
  simpl.
  destruct Hblank as [H | [H | H]]; rewrite H; simpl;
    repeat match goal with
           | |- context [environ (world s) !! ?k] =>
               destruct (environ (world s) !! k); simpl
           end;
    rewrite ?orb_true_r; reflexivity.
Qed.



(** ** Requests, further *)

Lemma notifier_event_not_session (e : event) :
  is_notifier_event e = true -> is_session_event e = false.
Proof. by destruct e. Qed.

Lemma notify_events_one_connection (env : gmap string string) (o : Oracle)
    (payload : ContactRequest) :
  (length (List.filter is_smtp_connect (notify_events env o payload)) <= 1)%nat.
Proof.
  unfold notify_events, notifier_outcome.
  notifier_cases env o; simpl; lia.
Qed.

Section Requests.

Variable validate_email : string -> option string.

(** The trace of a POST to /api/contact is bracketed by the opening and the
    closing of its session. *)
Lemma post_contact_bracketed (b : json) (o : Oracle) (w : World) :
  exists mid,
    trace (snd (app validate_email (POST "/api/contact" b) o w))
    = trace w ++ [SessionOpened] ++ mid ++ [SessionClosed]
    /\ Forall (fun e => is_session_event e = false) mid.
Proof.
  rewrite post_contact_exact.
  destruct (ContactRequest_validate validate_email b) as [errors|payload].
  { exists []. by split. }
  destruct (contact_messages w) as [rows|].
  2: { exists [SqlRollback]. split; [done | by repeat constructor]. }
  cbv zeta.
  destruct (commit_fault o) as [e|].
  { exists [SqlRollback]. split; [done | by repeat constructor]. }
  destruct (refresh_fault o) as [e|].
  { eexists [SqlInsert _; SqlCommit; SqlSelect _; SqlRollback].
    split; [done | by repeat constructor]. }
  eexists ([SqlInsert _; SqlCommit; SqlSelect _]
           ++ notify_events (environ w) o payload ++ [SqlRollback]).
  split; [simpl; by rewrite <- ?(assoc_L (++)) |].
  apply Forall_app. split; [by repeat constructor |].
  apply Forall_app. split; [| by repeat constructor].
  eapply Forall_impl; [apply notify_events_notifier |].
  apply notifier_event_not_session.
Qed.

(** X1: lines 41-46.  Whatever happens to a POST to /api/contact (the body
    is rejected, the commit or the refresh raises, the mail transport raises,
    or all goes well), its session is opened first, closed last, and is the
    only session of the request. *)
Theorem session_released_on_every_path (b : json) (o : Oracle) (w : World) :
  exists mid,
    trace (snd (app validate_email (POST "/api/contact" b) o w))
    = trace w ++ [SessionOpened] ++ mid ++ [SessionClosed]
    /\ Forall (fun e => is_session_event e = false) mid.
Proof. apply post_contact_bracketed. Qed.

(** X9: a 200 answer is never given without the row.  When POST
    /api/contact answers 200, the body was valid, the answer is the success
    body, and the table has gained exactly the row of the submission under
    the id the answer carries. *)
Theorem success_means_row_stored (b : json) (o : Oracle) (w : World) :
  status_code (fst (app validate_email (POST "/api/contact" b) o w)) = 200 ->
  exists payload rows,
    ContactRequest_validate validate_email b = inr payload
    /\ contact_messages w = Some rows
    /\ fst (app validate_email (POST "/api/contact" b) o w)
       = mkResponse 200 (success_body (next_rowid rows))
    /\ contact_messages (snd (app validate_email (POST "/api/contact" b) o w))
       = Some (rows ++ [mkRow (next_rowid rows) (req_name payload)
                              (req_email payload) (req_message payload)
                              (Some (utcnow o))]).
Proof.
  rewrite post_contact_exact.
  destruct (ContactRequest_validate validate_email b) as [errors|payload]; [done |].
  destruct (contact_messages w) as [rows|]; [| done].
  cbv zeta.
  destruct (commit_fault o); [done |].
  destruct (refresh_fault o); [done |].
  intros _. by exists payload, rows.
Qed.

(** X10: insert and look up.  Selecting from the table by the id a request
    has answered finds the row of that request, with the name and message as
    submitted, the validated email and the time of the insert, and not any
    older row. *)
Theorem answered_id_finds_submission (b : json) (payload : ContactRequest)
    (o : Oracle) (w : World) (i : Z) :
  ContactRequest_validate validate_email b = inr payload ->
  response_id (fst (app validate_email (POST "/api/contact" b) o w)) = Some i ->
  List.find (fun r => Z.eqb (row_id r) i)
            (table_rows (snd (app validate_email (POST "/api/contact" b) o w)))
  = Some (mkRow i (req_name payload) (req_email payload) (req_message payload)
                (Some (utcnow o))).
Proof.
  intros Hb. rewrite post_contact_exact, Hb.
  destruct (contact_messages w) as [rows|]; [| done].
  cbv zeta.
  destruct (commit_fault o); [done |].
  destruct (refresh_fault o); [done |].
  intros [= <-]. unfold table_rows. simpl.
  apply (find_fresh_row rows (inserted_row payload o rows)), next_rowid_fresh.
Qed.

(** X11: the row is written exactly when the commit goes through.  For a
    valid submission on an existing table, the table afterwards is the old
    one plus the row when the commit does not raise, and the old one when it
    does; neither the refresh nor the notifier has a say. *)
Theorem row_written_iff_commit (b : json) (payload : ContactRequest)
    (o : Oracle) (w : World) (rows : list Row) :
  ContactRequest_validate validate_email b = inr payload ->
  contact_messages w = Some rows ->
  contact_messages (snd (app validate_email (POST "/api/contact" b) o w))
  = Some (match commit_fault o with
          | None => rows ++ [inserted_row payload o rows]
          | Some _ => rows
          end).
Proof.
  intros Hb Htable. rewrite post_contact_exact, Hb, Htable. cbv zeta.
  destruct (commit_fault o); [done |].
  by destruct (refresh_fault o).
Qed.

(** X12: no retry, and no mail without a stored row.  A request makes at
    most one connection to the mail server, and a request that does not
    answer 200 causes no notifier event at all. *)
Theorem at_most_one_connection (b : json) (o : Oracle) (w : World) :
  exists evs,
    trace (snd (app validate_email (POST "/api/contact" b) o w)) = trace w ++ evs
    /\ (length (List.filter is_smtp_connect evs) <= 1)%nat
    /\ (status_code (fst (app validate_email (POST "/api/contact" b) o w)) <> 200 ->
        Forall (fun e => is_notifier_event e = false) evs).
Proof.
  rewrite post_contact_exact.
  destruct (ContactRequest_validate validate_email b) as [errors|payload].
  { eexists. split; [done |]. split; [simpl; lia | by repeat constructor]. }
  destruct (contact_messages w) as [rows|].
  2: { eexists. split; [done |]. split; [simpl; lia | by repeat constructor]. }
  cbv zeta.
  destruct (commit_fault o).
  { eexists. split; [done |]. split; [simpl; lia | by repeat constructor]. }
  destruct (refresh_fault o).
  { eexists. split; [done |]. split; [simpl; lia | by repeat constructor]. }
  eexists. split; [done |]. split; [| done].
  simpl. rewrite List.filter_app, length_app. simpl.
  pose proof (notify_events_one_connection (environ w) o payload). lia.
Qed.

(** X13: POST /api/contact is the only request with an effect.  A request
    leaves the world exactly as it found it if and only if it is not a POST
    to /api/contact. *)
Theorem only_contact_route_has_effects (req : Request) (o : Oracle) (w : World) :
  snd (app validate_email req o w) = w
  <-> forall b, req <> POST "/api/contact" b.
Proof.
  split; [| apply other_request_no_effect].
  intros Hsame b ->.
  destruct (post_contact_bracketed b o w) as (mid & Htrace & _).
  rewrite Hsame in Htrace.
  apply (f_equal length) in Htrace. rewrite !length_app in Htrace.
  simpl in Htrace. lia.
Qed.

End Requests.

(** ** Startup *)

Section Startup.

Variable validate_email : string -> option string.

Lemma startup_world (o : Oracle) (w : World) :
  step validate_email Startup o w
  = mkWorld (Some (table_rows w)) (environ w)
            (trace w
             ++ match contact_messages w with
                | None => [SqlCreateTable; SqlCreateIndex]
                | Some _ => []
                end
             ++ [SqlCommit; Print "✅ Database ready"]).
Proof.
  unfold step, run_request, on_startup, create_db_and_tables, get_world,
    put_world, bind, ret, print, emit, table_rows. simpl.
  destruct (contact_messages w) eqn:Htable; simpl; rewrite ?Htable; simpl;
    by rewrite <- ?(assoc_L (++)).
Qed.

(** X2: lines 36-38 and 118-121.  The startup hook creates the table, empty,
    when it does not exist, together with its index, and keeps the rows of a
    table that exists.  Running it again changes nothing in the store: the
    table is as the first run left it and the second run creates nothing. *)
Theorem startup_creates_table_once (o1 o2 : Oracle) (w : World) :
  contact_messages (step validate_email Startup o1 w) = Some (table_rows w)
  /\ (exists evs,
         trace (step validate_email Startup o1 w) = trace w ++ evs
         /\ (contact_messages w = None ->
             SqlCreateTable ∈ evs /\ SqlCreateIndex ∈ evs)
         /\ (is_Some (contact_messages w) ->
             Forall (fun e => is_create_event e = false) evs))
  /\ contact_messages (step validate_email Startup o2 (step validate_email Startup o1 w))
     = contact_messages (step validate_email Startup o1 w)
  /\ (exists evs,
         trace (step validate_email Startup o2 (step validate_email Startup o1 w))
         = trace (step validate_email Startup o1 w) ++ evs
         /\ Forall (fun e => is_create_event e = false) evs).
Proof.
  rewrite (startup_world o2), (startup_world o1). simpl.
  split; [done |].
  split.
  { eexists. split; [reflexivity |].
    split.
    - intros ->. set_solver.
    - intros [rows ->]. by repeat constructor. }
  split; [done |].
  eexists. split; [reflexivity |]. by repeat constructor.
Qed.

(** X3: the startup hook is what makes the first submission possible.  On a
    store without the table, a valid submission answers 500, writes nothing
    and leaves the table absent; once the hook has run, the same submission
    with a working store answers 200, and on a table that was absent its id
    is 1. *)
Theorem startup_enables_submission (b : json) (payload : ContactRequest)
    (o o0 : Oracle) (w : World) :
  ContactRequest_validate validate_email b = inr payload ->
  commit_fault o = None ->
  refresh_fault o = None ->
  (contact_messages w = None ->
   fst (app validate_email (POST "/api/contact" b) o w) = internal_server_error
   /\ contact_messages (snd (app validate_email (POST "/api/contact" b) o w)) = None)
  /\ fst (app validate_email (POST "/api/contact" b) o
              (step validate_email Startup o0 w))
     = mkResponse 200 (success_body (next_rowid (table_rows w)))
  /\ (contact_messages w = None -> next_rowid (table_rows w) = 1).
Proof.
  intros Hb Hc He. split; [| split].
  - intros Htable. by rewrite post_contact_exact, Hb, Htable.
  - rewrite post_contact_exact, Hb, startup_world. simpl. by rewrite Hc, He.
  - unfold table_rows. by intros ->.
Qed.

End Startup.

(** ** Validation, both directions *)

(** X4: lines 53-56.  A body is accepted exactly when it is an object whose
    name and message are strings and whose email is a string the validator
    accepts; the payload then holds name and message verbatim, with no
    trimming and no length check, and the email as the validator returned
    it. *)
Theorem accepted_iff_wellformed (validate_email : string -> option string)
    (b : json) (payload : ContactRequest) :
  ContactRequest_validate validate_email b = inr payload
  <-> exists fields e,
        b = JObj fields
        /\ dict_get "name" fields = Some (JStr (req_name payload))
        /\ dict_get "email" fields = Some (JStr e)
        /\ validate_email e = Some (req_email payload)
        /\ dict_get "message" fields = Some (JStr (req_message payload)).
Proof.
  split.
  - unfold ContactRequest_validate, str_field, EmailStr_field.
    intros Hb. destruct b as [| | | | |fields]; try discriminate.
    exists fields.
    destruct (dict_get "name" fields) as [[| | |n| |]|];
      destruct (dict_get "email" fields) as [[| | |e| |]|];
      try destruct (validate_email e) as [e'|] eqn:He;
      destruct (dict_get "message" fields) as [[| | |m| |]|];
      try discriminate.
    injection Hb as <-. by exists e.
  - intros (fields & e & -> & Hn & He & Hv & Hm).
    destruct payload as [n e' m]. simpl in *.
    by apply wellformed_body_validates with (e := e).
Qed.

(** ** The ids of the table *)

Section Ids.

Variable validate_email : string -> option string.

(** An operation adds no id, or the one the engine chooses. *)
Lemma step_table_ids (op : operation) (o : Oracle) (w : World) :
  table_ids (step validate_email op o w) = table_ids w
  \/ table_ids (step validate_email op o w)
     = table_ids w ++ [next_rowid (table_rows w)].
Proof.
  destruct op as [|[path|path b]].
  - left. rewrite startup_world. unfold table_ids, table_rows. simpl.
    by destruct (contact_messages w).
  - left. unfold step. by rewrite other_request_no_effect.
  - unfold step. destruct (String.eqb_spec path "/api/contact") as [-> | Hpath].
    + rewrite post_contact_exact. unfold table_ids, table_rows.
      destruct (ContactRequest_validate validate_email b); [by left |].
      destruct (contact_messages w) as [rows|]; [| by left].
      cbv zeta. destruct (commit_fault o); [by left |].
      right. destruct (refresh_fault o); simpl; by rewrite map_app.
    + left. rewrite other_request_no_effect; [done | congruence].
Qed.

Lemma table_ids_rows (w : World) : table_ids w = map row_id (table_rows w).
Proof. reflexivity. Qed.

(** X14: the primary key stays unique.  If no two rows of the table share an
    id, no sequence of operations (startup, requests of any kind, with any
    faults) makes two rows share one. *)
Theorem primary_key_stays_unique (ops : list (operation * Oracle)) (w : World) :
  NoDup (table_ids w) ->
  NoDup (table_ids (run_ops validate_email ops w)).
Proof.
  revert w. induction ops as [|[op o] ops IH]; intros w Hnodup; [done |].
  simpl. apply IH.
  destruct (step_table_ids op o w) as [-> | ->]; [done |].
  apply NoDup_app. split; [done |]. split; [| apply NoDup_singleton].
  intros i Hi Hin. apply list_elem_of_singleton in Hin as ->.
  rewrite table_ids_rows in Hi.
  apply list_elem_of_fmap in Hi as (r & Hid & Hr).
  pose proof (next_rowid_fresh (table_rows w)) as Hfresh.
  rewrite Forall_forall in Hfresh. specialize (Hfresh r Hr). simpl in Hfresh. lia.
Qed.

(** X15: ids count up from 1 without gaps.  If the ids of the table are
    1, ..., n in insertion order (as in an empty or absent table), they are
    1, ..., m with n <= m after any sequence of operations: a request whose
    commit fails uses up no id, and a request whose refresh fails keeps
    its. *)
Theorem ids_stay_dense (ops : list (operation * Oracle)) (w : World) :
  dense_ids w ->
  dense_ids (run_ops validate_email ops w)
  /\ (length (table_ids w) <= length (table_ids (run_ops validate_email ops w)))%nat.
Proof.
  revert w. induction ops as [|[op o] ops IH]; intros w Hdense; [done |].
  simpl.
  assert (dense_ids (step validate_email op o w)
          /\ (length (table_ids w) <= length (table_ids (step validate_email op o w)))%nat)
    as [Hdense1 Hlen1].
  { unfold dense_ids in *.
    destruct (step_table_ids op o w) as [-> | ->]; [done |].
    rewrite length_app. simpl. split; [| lia].
    rewrite Nat.add_1_r, seq_S, fmap_app, <- Hdense. simpl. f_equal. f_equal.
    rewrite table_ids_rows in *.
    destruct (table_rows w) as [|r rows] eqn:Hrows; [done |].
    rewrite <- Hrows in *.
    assert (length (map row_id (table_rows w)) <> 0)%nat as Hpos
        by (rewrite Hrows; done).
    rewrite (next_rowid_above_max (table_rows w)
               (Z.of_nat (length (map row_id (table_rows w))))); [lia | |].
    - apply Forall_forall. intros r' Hr'.
      assert (row_id r' ∈ map row_id (table_rows w)) as Hin
          by (apply list_elem_of_fmap; eauto).
      rewrite Hdense in Hin.
      apply list_elem_of_fmap in Hin as (k & -> & Hk).
      apply elem_of_seq in Hk. lia.
    - rewrite Hdense at 2. apply list_elem_of_fmap.
      exists (length (map row_id (table_rows w))). split; [done |].
      apply elem_of_seq. lia. }
  destruct (IH _ Hdense1) as [Hdense2 Hlen2].
  split; [done | lia].
Qed.

(** X16: submissions are not deduplicated.  The same valid body submitted
    twice, with both commits going through and room in the table for two
    more ids, is stored twice: two rows with the same name, email and
    message, under consecutive ids, each with the time of its own insert. *)
Theorem duplicates_are_stored_twice (b : json) (payload : ContactRequest)
    (o1 o2 : Oracle) (w : World) (rows : list Row) :
  ContactRequest_validate validate_email b = inr payload ->
  contact_messages w = Some rows ->
  rowid_headroom w 2 ->
  commit_fault o1 = None ->
  commit_fault o2 = None ->
  contact_messages
    (snd (serve validate_email
                [(POST "/api/contact" b, o1); (POST "/api/contact" b, o2)] w))
  = Some (rows
          ++ [mkRow (next_rowid rows) (req_name payload) (req_email payload)
                    (req_message payload) (Some (utcnow o1));
              mkRow (next_rowid rows + 1) (req_name payload) (req_email payload)
                    (req_message payload) (Some (utcnow o2))]).
Proof.
  intros Hb Htable _ Hc1 Hc2.
  assert (contact_messages (snd (app validate_email (POST "/api/contact" b) o1 w))
          = Some (rows ++ [inserted_row payload o1 rows])) as Hfirst.
  { rewrite post_contact_exact, Hb, Htable. cbv zeta. rewrite Hc1.
    by destruct (refresh_fault o1). }
  simpl serve.
  destruct (app validate_email (POST "/api/contact" b) o1 w) as [resp1 w1].
  simpl in Hfirst.
  assert (contact_messages (snd (app validate_email (POST "/api/contact" b) o2 w1))
          = Some ((rows ++ [inserted_row payload o1 rows])
                  ++ [inserted_row payload o2 (rows ++ [inserted_row payload o1 rows])]))
    as Hsecond.
  { rewrite post_contact_exact, Hb, Hfirst. cbv zeta. rewrite Hc2.
    by destruct (refresh_fault o2). }
  destruct (app validate_email (POST "/api/contact" b) o2 w1) as [resp2 w2].
  simpl in Hsecond |- *. rewrite Hsecond, <- (assoc_L (++)).
  pose proof (next_rowid_after_insert rows (inserted_row payload o1 rows) eq_refl)
    as Hnext.
  unfold inserted_row in *. by rewrite Hnext.
Qed.

End Ids.

(** ** The further properties on concrete inputs *)




Lemma notifier_blank_value_disables_witness :
  environ blank_recipient_world !! "TO_EMAIL" = Some ""
  /\ environ blank_recipient_world !! "GMAIL_USER" = Some "owner@example.com"
  /\ send_contact_email (mkContactRequest "A" "a@example.com" "hi")
                        (healthy 1700000000) (mkState blank_recipient_world [] [])
     = (Ok tt,
        with_trace (mkState blank_recipient_world [] [])
          [Print "⚠️ Email not sent: missing GMAIL_USER / GMAIL_APP_PASSWORD / TO_EMAIL env vars"]).
Proof.
  split; [reflexivity |].
  split; [reflexivity |].
  apply (notifier_blank_value_disables (mkContactRequest "A" "a@example.com" "hi")
           (healthy 1700000000) (mkState blank_recipient_world [] [])).
  right; right. reflexivity.
Defined.

Lemma success_means_row_stored_witness :
  status_code (fst (app sample_validate_email
                        (POST "/api/contact" (sample_body "A" "a@example.com" "hi"))
                        (mail_down 1700000000) legacy_world)) = 200
  /\ exists payload rows,
       ContactRequest_validate sample_validate_email
                               (sample_body "A" "a@example.com" "hi") = inr payload
       /\ contact_messages legacy_world = Some rows
       /\ fst (app sample_validate_email
                   (POST "/api/contact" (sample_body "A" "a@example.com" "hi"))
                   (mail_down 1700000000) legacy_world)
          = mkResponse 200 (success_body (next_rowid rows))
       /\ contact_messages
            (snd (app sample_validate_email
                      (POST "/api/contact" (sample_body "A" "a@example.com" "hi"))
                      (mail_down 1700000000) legacy_world))
          = Some (rows ++ [mkRow (next_rowid rows) (req_name payload)
                                 (req_email payload) (req_message payload)
                                 (Some (utcnow (mail_down 1700000000)))]).
Proof.
  split; [reflexivity |].
  apply (success_means_row_stored sample_validate_email
           (sample_body "A" "a@example.com" "hi")
           (mail_down 1700000000) legacy_world).
  reflexivity.
Defined.

Lemma answered_id_finds_submission_witness :
  response_id (fst (app sample_validate_email
                        (POST "/api/contact" (sample_body "A" "a@example.com" "hi"))
                        (healthy 1700000000) legacy_world)) = Some 10
  /\ List.find (fun r => Z.eqb (row_id r) 10)
               (table_rows
                  (snd (app sample_validate_email
                            (POST "/api/contact" (sample_body "A" "a@example.com" "hi"))
                            (healthy 1700000000) legacy_world)))
     = Some (mkRow 10 "A" "a@example.com" "hi" (Some 1700000000)).
Proof.
  split; [reflexivity |].
  exact (answered_id_finds_submission sample_validate_email
           (sample_body "A" "a@example.com" "hi")
           (mkContactRequest "A" "a@example.com" "hi")
           (healthy 1700000000) legacy_world 10 eq_refl eq_refl).
Defined.

Lemma row_written_iff_commit_witness :
  contact_messages
    (snd (app sample_validate_email
              (POST "/api/contact" (sample_body "A" "a@example.com" "hi"))
              (refresh_down 1700000000) sample_world))
  = Some [mkRow 1 "A" "a@example.com" "hi" (Some 1700000000)]
  /\ contact_messages
       (snd (app sample_validate_email
                 (POST "/api/contact" (sample_body "A" "a@example.com" "hi"))
                 (store_down 1700000000) sample_world))
     = Some [].
Proof.
  split.
  - exact (row_written_iff_commit sample_validate_email
             (sample_body "A" "a@example.com" "hi")
             (mkContactRequest "A" "a@example.com" "hi")
             (refresh_down 1700000000) sample_world [] eq_refl eq_refl).
  - exact (row_written_iff_commit sample_validate_email
             (sample_body "A" "a@example.com" "hi")
             (mkContactRequest "A" "a@example.com" "hi")
             (store_down 1700000000) sample_world [] eq_refl eq_refl).
Defined.

Lemma startup_enables_submission_witness :
  fst (app sample_validate_email
           (POST "/api/contact" (sample_body "A" "a@example.com" "hi"))
           (healthy 1700000001) absent_world)
  = internal_server_error
  /\ fst (app sample_validate_email
              (POST "/api/contact" (sample_body "A" "a@example.com" "hi"))
              (healthy 1700000001)
              (step sample_validate_email Startup (healthy 1700000000) absent_world))
     = mkResponse 200 (success_body 1).
Proof.
  destruct (startup_enables_submission sample_validate_email
              (sample_body "A" "a@example.com" "hi")
              (mkContactRequest "A" "a@example.com" "hi")
              (healthy 1700000001) (healthy 1700000000) absent_world
              eq_refl eq_refl eq_refl) as (Hbefore & Hafter & _).
  split; [exact (proj1 (Hbefore eq_refl)) | exact Hafter].
Defined.

Lemma primary_key_stays_unique_witness :
  NoDup (table_ids legacy_world)
  /\ table_ids (run_ops sample_validate_email sample_ops legacy_world)
     = [3; 9; 10; 11; 12]
  /\ NoDup (table_ids (run_ops sample_validate_email sample_ops legacy_world)).
Proof.
  assert (NoDup (table_ids legacy_world)) as Hnodup.
  { apply NoDup_cons. split; [| apply NoDup_singleton].
    rewrite list_elem_of_singleton. discriminate. }
  split; [exact Hnodup |].
  split; [reflexivity |].
  exact (primary_key_stays_unique sample_validate_email sample_ops legacy_world Hnodup).
Defined.

Lemma ids_stay_dense_witness :
  dense_ids absent_world
  /\ table_ids (run_ops sample_validate_email sample_ops absent_world) = [1; 2]
  /\ dense_ids (run_ops sample_validate_email sample_ops absent_world).
Proof.
  assert (dense_ids absent_world) as Hdense by reflexivity.
  split; [exact Hdense |].
  split; [reflexivity |].
  exact (proj1 (ids_stay_dense sample_validate_email sample_ops absent_world Hdense)).
Defined.

Lemma duplicates_are_stored_twice_witness :
  rowid_headroom sample_world 2
  /\ contact_messages
       (snd (serve sample_validate_email
                   [(POST "/api/contact" (sample_body "A" "a@example.com" "hi"),
                     healthy 1700000001);
                    (POST "/api/contact" (sample_body "A" "a@example.com" "hi"),
                     healthy 1700000002)]
                   sample_world))
     = Some [mkRow 1 "A" "a@example.com" "hi" (Some 1700000001);
             mkRow 2 "A" "a@example.com" "hi" (Some 1700000002)].
Proof.
  assert (rowid_headroom sample_world 2) as Hroom by (vm_compute; discriminate).
  split; [exact Hroom |].
  exact (duplicates_are_stored_twice sample_validate_email
           (sample_body "A" "a@example.com" "hi")
           (mkContactRequest "A" "a@example.com" "hi")
           (healthy 1700000001) (healthy 1700000002) sample_world []
           eq_refl eq_refl Hroom eq_refl eq_refl).
Defined.
